(* ===== verification/_CoqProject ===== *)
-Q . S2P
Prelude.v
Symbols.v
Prizes.v
Surface.v
Scratch.v
Game.v
Scenarios.v
