(* ===== verification/Prelude.v ===== *)
(** * A verification of the scratch-card page of mu001999/wol

    The repository has one program, [src/script.js]: a class [ScratchCard]
    that, once the page is loaded, gives every [.scratch-card] element of the
    document a "lucky word", decides the prize hidden under the card, covers
    it with a silver canvas overlay and lets the user scratch the overlay off
    with the mouse or a finger; once half of the overlay is transparent the
    prize is revealed.  The development models that class, method by method,
    with the browser's behaviour it relies on written out:

    - JavaScript numbers are IEEE binary64 doubles.  They are modelled by
      Rocq's primitive floats ([PrimFloat.float]), so that the accumulation
      [cumulativeProbability += prize.probability] of [generatePrize] rounds
      exactly as V8 does.  Comparisons ([<], [<=], [===]) are the ECMAScript
      [Number::lessThan] and [Number::equal] on the exact rational value of
      the doubles ([Prelude.numview_of], [Prelude.js_lt], [Prelude.js_le],
      [Prelude.js_num_eqb]), NaN and infinities included.
    - [Math.random()] is an explicit stream of draws threaded through the
      program ([Prelude.Rng], [Prelude.math_random]), so the order in which
      the program consumes randomness is part of the model.  A stream is
      well formed ([Prelude.rng_ok]) when every draw lies in [0,1).
    - Exceptions that escape an event handler are values of
      [Prelude.js_error]; the DOM reports them and goes on with the next
      listener, which the dispatcher of [Game.v] models.

    Components and files (in dependency order, as listed in _CoqProject):

    - [Prelude.v] (this file): JS numbers over primitive floats, [Math.floor]
      of a scaled draw, array indexing, [Number::toString] for the amounts the
      page prints, the random stream, JS errors, the hint database [wol] and
      the lemmas every component shares.
    - [Symbols.v], Module [Symbols]: [shuffleWinningWords] (lines 31-53),
      the two word pools and the [includes] test of [setupCards]; the write
      to each card is a Section variable, so the file does not depend on the
      card type.
    - [Prizes.v], Module [Prizes]: the prize tables (lines 11-17, 113-121),
      [generatePrize] (lines 107-131) as a fold that carries the floating
      point accumulator, the prize gate of [setupCards] (lines 63-80) and the
      text and dataset written into the card (lines 82-100).  A Section
      states the abstract weighted picker (a draw selects the entry whose
      cumulative bracket contains it) and proves that the loop refines it
      for every table with increasing prefix sums.
    - [Surface.v]: the canvas.  The 2D context is the interface
      [Surface2D] (a typeclass: resize, [fillRect], [fillText], the
      [destination-out] disc of [scratch], [clearRect], [getImageData])
      with its laws [Surface2DLaws] (sizes, a resize clears, opaque fills,
      an erase never makes a transparent pixel visible again, [clearRect]
      makes every pixel transparent).  No law says that erasing the same
      disc twice is erasing it once: with anti-aliasing a browser lowers
      the alpha of an edge pixel again on every erase, so the count of
      transparent pixels may still grow.  [calculateScratchedArea] (lines 224-236) is its loop
      over the RGBA bytes; [setupCanvas_draw] the drawing of [setupCanvas]
      (lines 137-156).  [AlphaCanvas] is an instance: the alpha plane of a
      [w] x [h] grid, a pixel erased when its centre lies in the disc.
    - [Scratch.v], Module [Scratch]: one card.  [Card] holds the card's
      word, its prize text and dataset, the [scratched] class, its canvas
      and the closures of its [setupScratching] calls; each closure
      ([Closure]) holds [isScratching], [scratchedArea], [totalArea].
      [getMousePos], [scratch], [startScratching], [scratchMove],
      [endScratching] and [revealPrize] (lines 162-257) are functions of the
      shared [scratchedCards] set, the card and the closure; [dispatch] runs
      the listeners of one event in registration order, as the DOM does,
      collecting the exceptions they throw.
    - [Game.v], Module [Game]: the page.  [Page] holds the cards, the set
      [scratchedCards], the random stream, the reported exceptions and the
      pending timers; [scratchCard_new] is the constructor with [init]
      ([shuffleWinningWords] then [setupCards], which calls [setupCanvas]
      per card); [step] is the event loop (a pointer event on card [i] or a
      timer); [run] a finite trace from the constructed page; [resetGame]
      a function no event reaches.
    - [Scenarios.v], Module [Scenarios]: concrete documents of two cards
      over [AlphaCanvas], the pages a press and a move on each card reach,
      and the theorems of the other files applied to them.

    Theorems, by group:

    - reveal (Scratch, Game): one event reveals a card at most once; along
      every run from the constructed page every card is revealed at most
      once; since the program never sets [data-card-id], on the cards of
      the page every key is [undefined] and at most one card per page is
      ever revealed (with distinct ids both cards of a scenario are); every
      reveal reports the ReferenceError of the [showWinningEffect] call, so
      no celebration is ever shown and no timer is ever set; a revealed card
      has its key registered and its overlay fully transparent;
    - blocking (Scratch, Game): a card whose key is registered and that is
      not being dragged ignores every event, and stays frozen along every
      run; without ids this freezes every other card after the first
      reveal;
    - refinement of the spec's overlay machine (Game): every step moves each
      card's overlay along HIDDEN -> SCRATCHING -> REVEALED, never back;
      along every run the erased area never decreases, the [scratched]
      class is never removed and the symbol, prize text and dataset of a
      card never change after setup;
    - pointer input (Scratch): a move reveals exactly when the key is not
      registered and at least half of the pixels are transparent (the
      double quotient against 0.5, decided exactly); a mouse event at
      [clientX] or [clientY] 0 throws a TypeError (the [||] fallback to
      [e.touches]); a [touchmove] without touch points throws a TypeError
      from every scratching closure instead of being ignored;
    - setup and reset (Surface, Game): the constructor yields, per card, an
      opaque overlay of the card's size and one idle closure, a symbol of
      one of the two pools, and a dataset and [no-prize] class that carry
      the spec's prize invariant (amount "0", type 谢谢参与 and the class
      exactly for a symbol that does not win); [resetGame]
      clears the set and the overlays but keeps every card's word (the spec
      says new symbols are drawn) and registers two more sets of listeners;
    - scan (Surface): the loop of [calculateScratchedArea] counts exactly
      the pixels whose alpha byte is 0;
    - prize engine (Prizes): a card whose word is not a winning word gets
      the prize [{amount: 0, type: '谢谢参与'}] and consumes no draw; a card
      whose word wins gets [amount >= 0.5] of type [年假] whatever the draws
      are; the amount is positive exactly when the type is not [谢谢参与];
      the double sum of the tier table is exactly [1.0], so for a draw in
      [0,1) the loop of [generatePrize] never reaches its fallback;
      [generatePrize] returns the k-th tier exactly when the draw lies in
      the k-th bracket of the cumulative double sums; the stub vectors of
      the spec's section 8 give the results it states;
    - symbols (Symbols): two draws per card, the index always within the
      pool; the normal pool contains the winning word '福', so a draw in the
      98% "non-winning" branch can still produce a winning word (a
      divergence from the spec, which puts the winning probability at 2%).

    Bounds and abstractions.  [Math.floor(Math.random() * n)] is modelled
    with the exact product of the draw and [n] (the rounding of the product
    is not modelled; for the pool sizes 2, 6 and 30 and a draw below 1 the
    rounded product stays below [n]).  [Number::toString] is modelled for
    integers below 10^21 and for halves, the only values the page prints
    ([Prelude.js_number_to_string] answers [None] elsewhere).  The pixel
    scan is a [Fixpoint] whose fuel is the length of the byte array, which
    is enough: every iteration consumes four bytes.  The threshold test
    [scratchedArea / totalArea >= 0.5] is decided on exact integers (the
    quotient of two integers below 2^53 rounds to a double on the same side
    of 0.5, since rounding is monotone and 0.5 is a double); a zero
    [totalArea] gives [Infinity] (reached) for a positive area and [NaN]
    (not reached) for 0.  Canvas sizes are the
    [unsigned long] conversion of the bounding rectangle's float size.

    Not modelled: styling, the gradient colours and the text of the overlay
    (they do not change the alpha channel the program reads, which the
    laws of [Surface2D] state), the exact rasterisation of the arc (only
    its laws are used by the theorems), the [localStorage.removeItem] call
    of [resetGame] (storage is never read), the layout of the page (the
    cards' rectangles are inputs). *)

From Stdlib Require Import Floats QArith Qround ZArith Lia Lqa.
From stdpp Require Import base list pretty strings.

Set Warnings "-inexact-float".

Declare Scope js_scope.
Delimit Scope js_scope with js.

Create HintDb wol.
Create Rewrite HintDb wol_rw.

(** ** JavaScript numbers *)

(** The four kinds of values a double can take, finite values by their
    exact rational value (both zeros are the rational 0). *)
Inductive numview :=
| NV_NaN
| NV_NegInf
| NV_Fin (q : Q)
| NV_PosInf.

Definition sf_value (s : bool) (m : positive) (e : Z) : Q :=
  let z := if s then Z.neg m else Z.pos m in
  match e with
  | Z0 => inject_Z z
  | Z.pos p => inject_Z (z * 2 ^ Z.pos p)
  | Z.neg p => Qmake z (Pos.pow 2 p)
  end.

Definition numview_of (f : float) : numview :=
  match Prim2SF f with
  | S754_zero _ => NV_Fin 0
  | S754_infinity true => NV_NegInf
  | S754_infinity false => NV_PosInf
  | S754_nan => NV_NaN
  | S754_finite s m e => NV_Fin (sf_value s m e)
  end.

Definition Qlt_bool (a b : Q) : bool := negb (Qle_bool b a).

Definition js_isnan (x : float) : bool :=
  match numview_of x with NV_NaN => true | _ => false end.

(** [x < y] on numbers (ECMAScript [Number::lessThan], undefined read as
    false). *)
Definition js_lt (x y : float) : bool :=
  match numview_of x, numview_of y with
  | NV_NaN, _ | _, NV_NaN => false
  | NV_PosInf, _ => false
  | _, NV_PosInf => true
  | _, NV_NegInf => false
  | NV_NegInf, _ => true
  | NV_Fin a, NV_Fin b => Qlt_bool a b
  end.

(** [x <= y] is [!(y < x)] unless one side is NaN. *)
Definition js_le (x y : float) : bool :=
  if js_isnan x || js_isnan y then false else negb (js_lt y x).

(** [x >= y]. *)
Definition js_ge (x y : float) : bool := js_le y x.

(** [x === y] on two numbers. *)
Definition js_num_eqb (x y : float) : bool :=
  match numview_of x, numview_of y with
  | NV_Fin a, NV_Fin b => Qeq_bool a b
  | NV_PosInf, NV_PosInf | NV_NegInf, NV_NegInf => true
  | _, _ => false
  end.

Notation "x <js y" := (js_lt x y) (at level 70, no associativity) : js_scope.
Notation "x <=js y" := (js_le x y) (at level 70, no associativity) : js_scope.
Notation "x ===js y" := (js_num_eqb x y) (at level 70, no associativity) : js_scope.

(** The rational value of a finite double, 0 for the others. *)
Definition fval (f : float) : Q :=
  match numview_of f with NV_Fin q => q | _ => 0 end.

(** [Math.floor(r * n)] for a draw [r] and an array length [n]; [None] is
    NaN or an infinity.  The product is taken exactly. *)
Definition js_floor_times (r : float) (n : nat) : option Z :=
  match numview_of r with
  | NV_Fin q => Some (Qfloor (q * inject_Z (Z.of_nat n)))
  | _ => None
  end.

(** [arr[i]] for a numeric index: [undefined] (here [None]) out of range. *)
Definition js_index {A} (l : list A) (i : option Z) : option A :=
  match i with
  | Some z => if (0 <=? z)%Z then l !! Z.to_nat z else None
  | None => None
  end.

(** [Number::toString] on integers below 10^21 and on halves. *)
Definition js_number_to_string (f : float) : option string :=
  match numview_of f with
  | NV_NaN => Some "NaN"
  | NV_PosInf => Some "Infinity"
  | NV_NegInf => Some "-Infinity"
  | NV_Fin q =>
      let q' := Qred q in
      if (Qden q' =? 1)%positive then
        if (Z.abs (Qnum q') <? 10 ^ 21)%Z then Some (pretty (Qnum q')) else None
      else if (Qden q' =? 2)%positive then
        let sign := if (Qnum q' <? 0)%Z then "-" else "" in
        Some (sign +:+ pretty (Z.abs (Qnum q') / 2)%Z +:+ ".5")
      else None
  end.

(** ** Errors thrown by the page's code *)

Inductive js_error :=
| TypeError (what : string)
| ReferenceError (name : string).

#[export] Instance js_error_eq_dec : EqDecision js_error.
Proof. solve_decision. Defined.

(** ** [Math.random()] as an explicit stream of draws *)

Record Rng := mkRng { draws : nat -> float; cursor : nat }.

Definition math_random (g : Rng) : float * Rng :=
  (draws g (cursor g), mkRng (draws g) (S (cursor g))).

(** A draw of [Math.random()] lies in [0,1). *)
Definition draw_ok (r : float) : bool :=
  match numview_of r with
  | NV_Fin q => Qle_bool 0 q && Qlt_bool q 1
  | _ => false
  end.

Definition rng_ok (g : Rng) : Prop := forall n, draw_ok (draws g n) = true.

(** A finite list of draws, as a test harness stubs [Math.random]. *)
Definition rng_of_list (l : list float) : Rng :=
  mkRng (fun n => nth n l 0%float) 0.

(** ** Shared lemmas *)

Lemma Qlt_bool_iff (a b : Q) : Qlt_bool a b = true <-> (a < b)%Q.
Proof.
  unfold Qlt_bool. rewrite negb_true_iff.
  split; intros H.
  - apply Qnot_le_lt. intros Hle. apply Qle_bool_iff in Hle. congruence.
  - destruct (Qle_bool b a) eqn:E; [|reflexivity].
    apply Qle_bool_iff in E. exfalso. apply (Qlt_not_le a b); assumption.
Qed.

Lemma Qlt_bool_false (a b : Q) : Qlt_bool a b = false <-> (b <= a)%Q.
Proof.
  unfold Qlt_bool. rewrite negb_false_iff. apply Qle_bool_iff.
Qed.

Lemma js_lt_fin (x y : float) (a b : Q) :
  numview_of x = NV_Fin a -> numview_of y = NV_Fin b ->
  js_lt x y = Qlt_bool a b.
Proof. intros Hx Hy. unfold js_lt. rewrite Hx, Hy. reflexivity. Qed.

Lemma js_le_fin (x y : float) (a b : Q) :
  numview_of x = NV_Fin a -> numview_of y = NV_Fin b ->
  js_le x y = Qle_bool a b.
Proof.
  intros Hx Hy. unfold js_le, js_isnan, js_lt. rewrite Hx, Hy. simpl.
  unfold Qlt_bool. apply negb_involutive.
Qed.

Lemma draw_ok_fin (r : float) :
  draw_ok r = true -> exists q, numview_of r = NV_Fin q /\ (0 <= q)%Q /\ (q < 1)%Q.
Proof.
  unfold draw_ok. destruct (numview_of r) as [| |q|]; try discriminate.
  rewrite andb_true_iff, Qle_bool_iff, Qlt_bool_iff. intros [H0 H1]. eauto.
Qed.

Lemma math_random_draw (g : Rng) :
  fst (math_random g) = draws g (cursor g) /\ draws (snd (math_random g)) = draws g.
Proof. split; reflexivity. Qed.

Lemma rng_ok_step (g : Rng) : rng_ok g -> rng_ok (snd (math_random g)).
Proof. intros H n. apply H. Qed.

#[export] Hint Resolve rng_ok_step : wol.
#[export] Hint Rewrite Qlt_bool_iff Qlt_bool_false Qle_bool_iff : wol_rw.

(** Evaluate the classification of the concrete doubles of a goal. *)
Ltac js_eval := vm_compute; try reflexivity.

(** Turn the boolean comparisons of a goal with finite operands into
    rational ones. *)
Ltac js_to_Q :=
  repeat match goal with
  | H : numview_of ?x = NV_Fin _, H' : numview_of ?y = NV_Fin _ |- context [js_lt ?x ?y] =>
      rewrite (js_lt_fin x y _ _ H H')
  | H : numview_of ?x = NV_Fin _, H' : numview_of ?y = NV_Fin _ |- context [js_le ?x ?y] =>
      rewrite (js_le_fin x y _ _ H H')
  end.

Lemma Qfloor_unique (x : Q) (z : Z) :
  (inject_Z z <= x)%Q -> (x < inject_Z (z + 1))%Q -> Qfloor x = z.
Proof.
  intros Hlo Hhi.
  pose proof (Qfloor_resp_le _ _ Hlo) as H1. rewrite Qfloor_Z in H1.
  pose proof (Qfloor_le x) as H2.
  assert (inject_Z (Qfloor x) < inject_Z (z + 1))%Q as H3 by (eapply Qle_lt_trans; eauto).
  rewrite <- Zlt_Qlt in H3. lia.
Qed.

(** [Math.floor(r * n)] of a draw in [0,1) is an index of an array of
    length [n]. *)
Lemma js_floor_times_range (r : float) (n : nat) :
  draw_ok r = true -> (0 < n)%nat ->
  exists z, js_floor_times r n = Some z /\ (0 <= z < Z.of_nat n)%Z.
Proof.
  intros Hr Hn. destruct (draw_ok_fin r Hr) as (q & Hq & H0 & H1).
  unfold js_floor_times. rewrite Hq. eexists; split; [reflexivity|].
  set (N := inject_Z (Z.of_nat n)).
  assert (0 < N)%Q as HN by (unfold N, Qlt; simpl; lia).
  split.
  - change 0%Z with (Qfloor (inject_Z 0)). apply Qfloor_resp_le.
    apply Qmult_le_0_compat; [assumption | apply Qlt_le_weak; assumption].
  - rewrite Zlt_Qlt. eapply Qle_lt_trans; [apply Qfloor_le|].
    apply Qlt_le_trans with (1 * N)%Q.
    + apply Qmult_lt_r; assumption.
    + rewrite Qmult_1_l. apply Qle_refl.
Qed.

Lemma js_index_in_range {A} (l : list A) (z : Z) :
  (0 <= z < Z.of_nat (length l))%Z ->
  exists w, js_index l (Some z) = Some w /\ w ∈ l.
Proof.
  intros [H0 H1]. unfold js_index. apply Z.leb_le in H0. rewrite H0.
  destruct (lookup_lt_is_Some_2 l (Z.to_nat z)) as [w Hw]; [lia|].
  exists w. split; [assumption|]. eapply list_elem_of_lookup_2; eassumption.
Qed.

(** [arr[Math.floor(Math.random() * arr.length)]] of a non-empty array is
    one of its elements. *)
Lemma js_pick_in_range {A} (l : list A) (r : float) :
  draw_ok r = true -> l <> [] ->
  exists w, js_index l (js_floor_times r (length l)) = Some w /\ w ∈ l.
Proof.
  intros Hr Hl. destruct l as [|a l']; [congruence|].
  destruct (js_floor_times_range r (length (a :: l')) Hr) as (z & -> & Hz); [simpl; lia|].
  apply js_index_in_range. assumption.
Qed.

Lemma rng_of_list_ok (l : list float) :
  forallb draw_ok l = true -> rng_ok (rng_of_list l).
Proof.
  intros Hl n. simpl. revert n. induction l as [|a l IH]; intros n.
  - destruct n; reflexivity.
  - simpl in Hl. apply andb_true_iff in Hl as [Ha Hl].
    destruct n; [assumption | apply IH; assumption].
Qed.

#[export] Hint Resolve js_pick_in_range rng_of_list_ok : wol.

(** ** The order of JS numbers *)

(** [Number::lessThan] on the classification of the two operands. *)
Definition nv_lt (a b : numview) : bool :=
  match a, b with
  | NV_NaN, _ | _, NV_NaN => false
  | NV_PosInf, _ => false
  | _, NV_PosInf => true
  | _, NV_NegInf => false
  | NV_NegInf, _ => true
  | NV_Fin a, NV_Fin b => Qlt_bool a b
  end.

Lemma js_lt_nv (x y : float) : js_lt x y = nv_lt (numview_of x) (numview_of y).
Proof. reflexivity. Qed.

Lemma nv_lt_trans (a b c : numview) :
  nv_lt a b = true -> nv_lt b c = true -> nv_lt a c = true.
Proof.
  destruct a, b, c; simpl; try discriminate; try reflexivity.
  rewrite !Qlt_bool_iff. apply Qlt_trans.
Qed.

Lemma js_lt_trans (x y z : float) :
  js_lt x y = true -> js_lt y z = true -> js_lt x z = true.
Proof. rewrite !js_lt_nv. apply nv_lt_trans. Qed.

Lemma js_lt_not_nan (x y : float) :
  js_lt x y = true -> js_isnan x = false /\ js_isnan y = false.
Proof.
  rewrite js_lt_nv. unfold js_isnan.
  destruct (numview_of x), (numview_of y); simpl; try discriminate; auto.
Qed.

(** [y < x] refutes [x <= y]. *)
Lemma js_lt_le_false (x y : float) : js_lt y x = true -> js_le x y = false.
Proof.
  intros H. unfold js_le. destruct (js_isnan x || js_isnan y); [reflexivity|].
  rewrite H. reflexivity.
Qed.

(** For numbers that are not NaN, [!(x <= y)] is [y < x]. *)
Lemma js_le_false_lt (x y : float) :
  js_isnan x = false -> js_isnan y = false -> js_le x y = false -> js_lt y x = true.
Proof.
  intros Hx Hy. unfold js_le. rewrite Hx, Hy. simpl. apply negb_false_iff.
Qed.

Lemma nv_lt_irrefl (a : numview) : nv_lt a a = false.
Proof.
  destruct a; try reflexivity. simpl. apply Qlt_bool_false. apply Qle_refl.
Qed.

Lemma js_lt_irrefl (x : float) : js_lt x x = false.
Proof. rewrite js_lt_nv. apply nv_lt_irrefl. Qed.

#[export] Hint Resolve js_lt_trans js_lt_le_false js_lt_irrefl : wol.

Lemma js_lt_le_trans (x y z : float) :
  js_lt x y = true -> js_le y z = true -> js_lt x z = true.
Proof.
  unfold js_le, js_isnan. rewrite !js_lt_nv.
  destruct (numview_of x), (numview_of y), (numview_of z); simpl; try discriminate; try reflexivity;
    rewrite ?negb_true_iff, ?Qlt_bool_iff, ?Qlt_bool_false; intros; lra.
Qed.

(** A draw of [Math.random()] is at most 1. *)
Lemma draw_ok_le_1 (r : float) : draw_ok r = true -> js_le r 1 = true.
Proof.
  intros Hr. destruct (draw_ok_fin r Hr) as (q & Hq & _ & H1).
  rewrite (js_le_fin r 1 q (fval 1) Hq) by (vm_compute; reflexivity).
  apply Qle_bool_iff. assert (E : (fval 1 == 1)%Q) by (vm_compute; reflexivity).
  rewrite E. lra.
Qed.

#[export] Hint Resolve js_lt_le_trans draw_ok_le_1 : wol.
