(* ===== verification/Symbols.v ===== *)
(** * Symbols: the lucky word of each card

    Models [ScratchCard.shuffleWinningWords] (src/script.js, lines 31-53),
    the word lists of the constructor (lines 6-8) and the winning-word test
    [this.winningWords.includes(currentWord)] of [setupCards] (line 67).
    Each card consumes two draws of [Math.random()]: the branch draw
    ([< 0.98]: normal pool, else winning pool) and the index draw. *)

From Stdlib Require Import Floats QArith Qround ZArith Lia Lqa.
From stdpp Require Import base list strings.
From S2P Require Import Prelude.

Set Warnings "-inexact-float".

Module Symbols.

Local Open Scope string_scope.

(** [this.winningWords] (line 7). *)
Definition winningWords : list string := ["福"; "财"].

(** [this.luckyWords] (line 8); the program never reads it. *)
Definition luckyWords : list string := ["福"; "禄"; "寿"; "喜"; "财"; "吉"].

(** The local [normalWords] of [shuffleWinningWords] (line 34), with its
    duplicates and its '福'. *)
Definition normalWords : list string :=
  ["禄"; "寿"; "喜"; "吉"; "安"; "康"; "宁"; "顺"; "旺"; "兴";
   "隆"; "昌"; "盛"; "旺"; "发"; "达"; "乐"; "和"; "美"; "满";
   "福"; "祥"; "瑞"; "吉"; "庆"; "贺"; "喜"; "悦"; "欢"; "乐"].

(** The local [winningWords] of [shuffleWinningWords] (line 35). *)
Definition winningWords_local : list string := ["福"; "财"].

(** [pool[Math.floor(Math.random() * pool.length)]]: [None] is
    [undefined]. *)
Definition pickWord (pool : list string) (g : Rng) : option string * Rng :=
  let '(r, g1) := math_random g in
  (js_index pool (js_floor_times r (length pool)), g1).

(** The body of the [forEach] callback up to [selectedWord] (lines 40-49). *)
Definition selectWord (g : Rng) : option string * Rng :=
  let '(r, g1) := math_random g in
  if js_lt r 0.98 then pickWord normalWords g1 else pickWord winningWords_local g1.

(** [luckyWord.textContent = selectedWord] (line 51): [textContent] is a
    nullable DOMString, so [undefined] is stored as the empty string. *)
Definition textContent_of (v : option string) : string :=
  match v with Some s => s | None => "" end.

(** [Array.prototype.includes] on strings. *)
Definition includes (l : list string) (s : string) : bool :=
  existsb (String.eqb s) l.

(** [isWinningWord] of [setupCards] (line 67). *)
Definition isWinningWord (currentWord : string) : bool :=
  includes winningWords currentWord.

Section Shuffle.

(** A card of the document and the write to its [.lucky-word] element. *)
Context {Card : Type} (set_lucky_word : string -> Card -> Card).

(** [this.cards.forEach(...)] of [shuffleWinningWords], cards in document
    order, the stream of draws threaded from one card to the next. *)
Fixpoint shuffleWinningWords (cards : list Card) (g : Rng) : list Card * Rng :=
  match cards with
  | [] => ([], g)
  | c :: cs =>
      let '(w, g1) := selectWord g in
      let '(cs', g2) := shuffleWinningWords cs g1 in
      (set_lucky_word (textContent_of w) c :: cs', g2)
  end.

End Shuffle.

(** ** Theorems *)

Lemma pickWord_spec (pool : list string) (g : Rng) :
  pickWord pool g =
  (js_index pool (js_floor_times (draws g (cursor g)) (length pool)),
   mkRng (draws g) (S (cursor g))).
Proof. reflexivity. Qed.

Lemma selectWord_spec (g : Rng) :
  selectWord g =
  let r1 := draws g (cursor g) in
  let r2 := draws g (S (cursor g)) in
  ((if js_lt r1 0.98
    then js_index normalWords (js_floor_times r2 (length normalWords))
    else js_index winningWords_local (js_floor_times r2 (length winningWords_local))),
   mkRng (draws g) (S (S (cursor g)))).
Proof. unfold selectWord. simpl. destruct (js_lt _ _); reflexivity. Qed.


(** The word of a card lies in the pool of its branch. *)
Lemma selectWord_pool (g : Rng) :
  rng_ok g ->
  exists w, fst (selectWord g) = Some w /\
    cursor (snd (selectWord g)) = S (S (cursor g)) /\
    (if js_lt (draws g (cursor g)) 0.98 then w ∈ normalWords else w ∈ winningWords_local).
Proof.
  intros Hg. rewrite selectWord_spec. cbv zeta. cbn [fst snd cursor].
  destruct (js_lt _ _);
    [ destruct (js_pick_in_range normalWords (draws g (S (cursor g)))) as (w & Hw & Hin)
    | destruct (js_pick_in_range winningWords_local (draws g (S (cursor g)))) as (w & Hw & Hin) ];
    try apply Hg; try discriminate; rewrite Hw; eauto.
Qed.

(** C27: Every card draws exactly two numbers, and with draws in [0,1) its
    word is an element of the pool of the branch taken, never [undefined]. *)
Theorem selectWord_in_pool (g : Rng) :
  rng_ok g ->
  exists w, fst (selectWord g) = Some w /\
    cursor (snd (selectWord g)) = S (S (cursor g)) /\
    (if js_lt (draws g (cursor g)) 0.98 then w ∈ normalWords else w ∈ winningWords_local).
Proof. eapply selectWord_pool; eassumption. Qed.





(** C20: The spec sets the chance of a winning word at 2%, but a draw in the
    "non-winning" branch ([Math.random() < 0.98]) can still give a winning
    word, because [normalWords] holds '福': here the branch draw is 0.5 and
    the index draw 0.68. *)
Theorem normal_branch_yields_winning_word :
  exists g, rng_ok g /\ js_lt (draws g (cursor g)) 0.98 = true /\
    fst (selectWord g) = Some "福" /\ isWinningWord "福" = true.
Proof.
  exists (rng_of_list [0.5; 0.68]%float).
  split; [apply rng_of_list_ok; vm_compute; reflexivity |].
  vm_compute. auto.
Qed.

Section ShuffleFacts.

Context {Card : Type} (set_lucky_word : string -> Card -> Card).

(** C26: [shuffleWinningWords] writes to every card, in document order, a
    word of one of the two pools, and consumes exactly two draws per
    card. *)
Theorem shuffleWinningWords_spec (cards : list Card) (g : Rng) :
  rng_ok g ->
  exists ws,
    length ws = length cards /\
    Forall (fun w => w ∈ normalWords \/ w ∈ winningWords_local) ws /\
    fst (shuffleWinningWords set_lucky_word cards g) = zip_with set_lucky_word ws cards /\
    draws (snd (shuffleWinningWords set_lucky_word cards g)) = draws g /\
    cursor (snd (shuffleWinningWords set_lucky_word cards g)) = (cursor g + 2 * length cards)%nat.
Proof.
  revert g. induction cards as [|c cs IH]; intros g Hg.
  - exists []. simpl. repeat split; [constructor | lia].
  - simpl. destruct (selectWord_pool g Hg) as (w & Hw & Hc & Hin).
    destruct (selectWord g) as [w0 g1] eqn:E. simpl in Hw, Hc. subst w0.
    assert (draws g1 = draws g) as Hd by (rewrite selectWord_spec in E; injection E as _ <-; reflexivity).
    assert (rng_ok g1) as Hg1 by (intros n; rewrite Hd; apply Hg).
    destruct (IH g1 Hg1) as (ws & Hl & Hf & Hr & Hd' & Hc').
    destruct (shuffleWinningWords set_lucky_word cs g1) as [cs' g2]. simpl in *.
    exists (w :: ws). repeat split.
    + simpl. congruence.
    + constructor; [destruct (js_lt _ _); auto | assumption].
    + simpl. congruence.
    + congruence.
    + lia.
Qed.

End ShuffleFacts.

(** ** Witnesses, at the spec's test stream (0.96, 0.96): a normal word. *)

Lemma stream_ok_96 : rng_ok (rng_of_list [0.96; 0.96]%float).
Proof. apply rng_of_list_ok. vm_compute. reflexivity. Qed.

Lemma selectWord_in_pool_witness :
  rng_ok (rng_of_list [0.96; 0.96]%float) /\
  exists w, fst (selectWord (rng_of_list [0.96; 0.96]%float)) = Some w /\
    cursor (snd (selectWord (rng_of_list [0.96; 0.96]%float))) = 2%nat /\
    w ∈ normalWords.
Proof.
  split; [exact stream_ok_96 |].
  exact (selectWord_in_pool (rng_of_list [0.96; 0.96]%float) stream_ok_96).
Defined.


Lemma shuffleWinningWords_spec_witness :
  rng_ok (rng_of_list [0.96; 0.96; 0.5; 0.68]%float) /\
  exists ws, length ws = length [""; ""] /\
    Forall (fun w => w ∈ normalWords \/ w ∈ winningWords_local) ws /\
    fst (shuffleWinningWords (fun w (_ : string) => w) [""; ""]
           (rng_of_list [0.96; 0.96; 0.5; 0.68]%float)) = zip_with (fun w (_ : string) => w) ws [""; ""] /\
    draws (snd (shuffleWinningWords (fun w (_ : string) => w) [""; ""]
           (rng_of_list [0.96; 0.96; 0.5; 0.68]%float))) = draws (rng_of_list [0.96; 0.96; 0.5; 0.68]%float) /\
    cursor (snd (shuffleWinningWords (fun w (_ : string) => w) [""; ""]
           (rng_of_list [0.96; 0.96; 0.5; 0.68]%float))) = (0 + 2 * length [""; ""])%nat.
Proof.
  assert (H : rng_ok (rng_of_list [0.96; 0.96; 0.5; 0.68]%float))
    by (apply rng_of_list_ok; vm_compute; reflexivity).
  split; [exact H |].
  exact (shuffleWinningWords_spec (fun w (_ : string) => w) [""; ""] _ H).
Defined.

End Symbols.
