(* ===== verification/Prizes.v ===== *)
(** * Prizes: the prize engine of [setupCards] and [generatePrize]

    Models, from src/script.js: the prize object literals, the constructor's
    [this.prizes] table (lines 11-17, never read), [generatePrize]
    (lines 107-131) with its table [adjustedPrizes] (lines 113-121) and its
    floating-point accumulator, the prize gate of [setupCards] (lines 63-80),
    the text written into the card (lines 82-95) and the dataset writes
    (lines 98-100).  The Section [WeightedPicker] states the abstract
    contract of the loop of [generatePrize] (a draw selects the entry whose
    cumulative bracket contains it) and proves that the loop implements it
    for every table whose double prefix sums increase. *)

From Stdlib Require Import Floats QArith Qround ZArith Lia Lqa.
From stdpp Require Import base list gmap strings.
From S2P Require Import Prelude Symbols.

Set Warnings "-inexact-float".

Module Prizes.

Local Open Scope string_scope.

(** A prize object: [{ amount, type, probability }]; the literals of lines
    68, 75 and 130 have no [probability] ([None]). *)
Record PrizeObj := mkPrize { amount : float; type : string; probability : option float }.

(** [this.prizes] (lines 11-16): configured but never read. *)
Definition prizes : list PrizeObj :=
  [mkPrize 0.5 "年假" (Some 0.002); mkPrize 1 "年假" (Some 0.001);
   mkPrize 3 "病假" (Some 0.0005); mkPrize 5 "病假" (Some 0.0002)]%float.

(** [adjustedPrizes] of [generatePrize] (lines 113-121). *)
Definition adjustedPrizes : list PrizeObj :=
  [mkPrize 0.5 "年假" (Some 0.8); mkPrize 1 "年假" (Some 0.15);
   mkPrize 3 "年假" (Some 0.04); mkPrize 7 "年假" (Some 0.008);
   mkPrize 15 "年假" (Some 0.0015); mkPrize 30 "年假" (Some 0.00045);
   mkPrize 100 "年假" (Some 0.00005%float)]%float.

(** [{ amount: 0.5, type: '年假' }], the fallback of line 130. *)
Definition defaultPrize : PrizeObj := mkPrize 0.5 "年假" None.

(** [{ amount: 0.5, type: '年假' }], the clamp of line 75. *)
Definition minPrize : PrizeObj := mkPrize 0.5 "年假" None.

(** [{ amount: 0, type: '谢谢参与' }], the initial prize of line 68. *)
Definition noPrize : PrizeObj := mkPrize 0 "谢谢参与" None.

(** [prize.probability] read as a number: [undefined] is NaN in [+=]. *)
Definition prob_value (p : PrizeObj) : float :=
  match probability p with Some x => x | None => nan end.

(** The [for ... of] loop of [generatePrize] (lines 123-130) from the
    current [cumulativeProbability]. *)
Fixpoint generatePrize_loop (random cumulative : float) (ps : list PrizeObj) : PrizeObj :=
  match ps with
  | [] => defaultPrize
  | p :: rest =>
      let c := (cumulative + prob_value p)%float in
      if js_le random c then p else generatePrize_loop random c rest
  end.

(** [generatePrize()] (lines 107-131): one draw. *)
Definition generatePrize (g : Rng) : PrizeObj * Rng :=
  let '(random, g1) := math_random g in
  (generatePrize_loop random 0 adjustedPrizes, g1).

(** The gate of [setupCards] (lines 68-80): a second draw only for a
    winning word, a third one ([generatePrize]) in the 5% branch. *)
Definition decidePrize (isWinningWord : bool) (g : Rng) : PrizeObj * Rng :=
  if isWinningWord then
    let '(r, g1) := math_random g in
    if js_lt r 0.95 then (minPrize, g1) else generatePrize g1
  else (noPrize, g).

(** [fakeDayOptions] (line 85). *)
Definition fakeDayOptions : list string := ["1天"; "2天"; "3天"; "5天"; "7天"; "10天"].

(** The [.prize-amount] and [.prize-type] texts and the [no-prize] class of
    the [.prize-content] element. *)
Record PrizeDisplay := mkDisplay {
  amount_text : string;
  type_text : string;
  no_prize : bool
}.

(** [`${prize.amount}`]; the amounts the page prints are integers and
    halves, for which [js_number_to_string] is defined. *)
Definition amount_string (a : float) : string :=
  match js_number_to_string a with Some s => s | None => "" end.

(** Lines 82-95: a fourth draw for a card without prize (the decorative day
    count); [classList.add('no-prize')] only in that branch. *)
Definition showPrize (prize : PrizeObj) (d : PrizeDisplay) (g : Rng) : PrizeDisplay * Rng :=
  if js_num_eqb (amount prize) 0 then
    let '(r, g1) := math_random g in
    let fakeDays := js_index fakeDayOptions (js_floor_times r (length fakeDayOptions)) in
    (mkDisplay (Symbols.textContent_of fakeDays) "" true, g1)
  else (mkDisplay (amount_string (amount prize) +:+ "天") "" (no_prize d), g).

(** [String(isWinningWord)]. *)
Definition bool_string (b : bool) : string := if b then "true" else "false".

(** Lines 98-100: the dataset stores strings. *)
Definition storePrize (prize : PrizeObj) (isWin : bool) (ds : gmap string string) :
  gmap string string :=
  <["isWinningWord" := bool_string isWin]>
    (<["prizeType" := type prize]> (<["prizeAmount" := amount_string (amount prize)]> ds)).

(** The body of the [forEach] callback of [setupCards] (lines 63-100), up to
    the call of [setupCanvas]. *)
Definition setupCardPrize (currentWord : string) (d : PrizeDisplay)
  (ds : gmap string string) (g : Rng) : PrizeDisplay * gmap string string * Rng :=
  let isWin := Symbols.isWinningWord currentWord in
  let '(prize, g1) := decidePrize isWin g in
  let '(d', g2) := showPrize prize d g1 in
  (d', storePrize prize isWin ds, g2).

(** The double prefix sums the loop compares the draw with. *)
Fixpoint cumsums (c : float) (ps : list PrizeObj) : list float :=
  match ps with
  | [] => []
  | p :: rest => let c' := (c + prob_value p)%float in c' :: cumsums c' rest
  end.

(** Increasing doubles. *)
Fixpoint chain_lt (cs : list float) : bool :=
  match cs with
  | c :: (d :: _) as ds => js_lt c d && chain_lt ds
  | _ => true
  end.

(** The weighted picker's contract: entry [k] is chosen by the draw [r]
    when [r] lies in its bracket [(cs[k-1], cs[k]]]. *)
Definition bracket (cs : list float) (r : float) (k : nat) : bool :=
  match cs !! k with
  | Some hi =>
      js_le r hi &&
      match k with
      | O => true
      | S k' => match cs !! k' with Some lo => js_lt lo r | None => false end
      end
  | None => false
  end.

(** ** Theorems *)

Lemma length_cumsums (c : float) (ps : list PrizeObj) : length (cumsums c ps) = length ps.
Proof. revert c. induction ps; intros c; simpl; [reflexivity | rewrite IHps; reflexivity]. Qed.

Lemma loop_result_cases (r c : float) (ps : list PrizeObj) :
  generatePrize_loop r c ps = defaultPrize \/ generatePrize_loop r c ps ∈ ps.
Proof.
  revert c. induction ps as [|p ps IH]; intros c; simpl; [auto|].
  destruct (js_le r _); [right; left |].
  destruct (IH (c + prob_value p)%float) as [H|H]; [left | right; right]; assumption.
Qed.

Lemma adjustedPrizes_min :
  Forall (fun p => js_le 0.5 (amount p) = true /\ type p = "年假") (defaultPrize :: adjustedPrizes).
Proof. repeat constructor. Qed.

(** The prize of a winning word. *)
Lemma decidePrize_winning_amount (g : Rng) :
  js_le 0.5 (amount (fst (decidePrize true g))) = true /\
  type (fst (decidePrize true g)) = "年假".
Proof.
  pose proof adjustedPrizes_min as Hmin. rewrite Forall_forall in Hmin.
  unfold decidePrize, generatePrize, math_random. cbn [fst snd draws cursor].
  destruct (js_lt _ 0.95); [split; reflexivity |]. cbn [fst].
  destruct (loop_result_cases (draws g (S (cursor g))) 0 adjustedPrizes) as [-> | H];
    [split; reflexivity | apply Hmin; right; exact H].
Qed.

(** C21: A card with a winning word gets a prize of at least half a day of
    type [年假], whatever the draws are (NaN and out-of-range draws
    included). *)
Theorem decidePrize_winning_min (g : Rng) :
  js_le 0.5 (amount (fst (decidePrize true g))) = true /\
  type (fst (decidePrize true g)) = "年假".
Proof. eapply decidePrize_winning_amount; eassumption. Qed.

Lemma chain_lt_head (c : float) (cs : list float) (k : nat) (x : float) :
  chain_lt (c :: cs) = true -> (c :: cs) !! k = Some x -> c = x \/ js_lt c x = true.
Proof.
  revert c k. induction cs as [|d cs IH]; intros c k Hch Hk.
  - destruct k; [left; injection Hk; auto | destruct k; discriminate].
  - destruct k as [|k]; [left; injection Hk; auto|].
    simpl in Hch. apply andb_true_iff in Hch as [Hcd Hch].
    destruct (IH d k Hch Hk) as [<- | H]; right; [assumption | eapply js_lt_trans; eassumption].
Qed.

Lemma chain_lt_tail (c : float) (cs : list float) : chain_lt (c :: cs) = true -> chain_lt cs = true.
Proof. destruct cs; [reflexivity|]. simpl. rewrite andb_true_iff. tauto. Qed.

Lemma bracket_succ (c : float) (cs : list float) (r : float) (k : nat) :
  bracket (c :: cs) r (S k) = true ->
  bracket cs r k = true /\ exists lo, (c :: cs) !! k = Some lo /\ js_lt lo r = true.
Proof.
  unfold bracket. simpl. destruct (cs !! k) as [hi|] eqn:Ehi; [|discriminate].
  destruct ((c :: cs) !! k) as [lo|] eqn:Elo; [|rewrite andb_false_r; discriminate].
  rewrite andb_true_iff. intros [Hhi Hlo]. split; [|eauto].
  rewrite Hhi. destruct k as [|k]; [reflexivity|]. simpl in Elo. rewrite Elo. exact Hlo.
Qed.

(** A draw in the bracket of entry [k] makes the loop return entry [k]. *)
Lemma loop_bracket (r c : float) (ps : list PrizeObj) (k : nat) (e : PrizeObj) :
  chain_lt (cumsums c ps) = true -> ps !! k = Some e ->
  bracket (cumsums c ps) r k = true -> generatePrize_loop r c ps = e.
Proof.
  revert c k. induction ps as [|p ps IH]; intros c k Hch Hk Hb; [discriminate|].
  cbn [cumsums generatePrize_loop] in *. set (c' := (c + prob_value p)%float) in *.
  destruct k as [|k].
  - injection Hk as <-. unfold bracket in Hb. simpl in Hb.
    rewrite andb_true_r in Hb. rewrite Hb. reflexivity.
  - apply bracket_succ in Hb as [Hb (lo & Hlo & Hlt)].
    assert (js_lt c' r = true) as Hc'.
    { destruct (chain_lt_head _ _ _ _ Hch Hlo) as [-> | H]; [exact Hlt | eapply js_lt_trans; eassumption]. }
    rewrite (js_lt_le_false _ _ Hc'). eapply IH; [eapply chain_lt_tail | |]; eassumption.
Qed.

(** Every draw up to the last prefix sum lies in some bracket. *)
Lemma bracket_cover (r c : float) (ps : list PrizeObj) (hi : float) :
  chain_lt (cumsums c ps) = true -> last (cumsums c ps) = Some hi -> js_le r hi = true ->
  exists k, bracket (cumsums c ps) r k = true.
Proof.
  revert c. induction ps as [|p ps IH]; intros c Hch Hlast Hr; [discriminate|].
  cbn [cumsums] in *. set (c' := (c + prob_value p)%float) in *.
  destruct (js_le r c') eqn:Er.
  { exists 0%nat. unfold bracket. simpl. rewrite Er. reflexivity. }
  destruct (cumsums c' ps) as [|d cs] eqn:Ecs.
  { simpl in Hlast. injection Hlast as ->. congruence. }
  assert (Hlast' : last (cumsums c' ps) = Some hi) by (rewrite Ecs in *; exact Hlast).
  rewrite <- Ecs in *. assert (Hch' := chain_lt_tail _ _ Hch).
  destruct (IH c' Hch' Hlast' Hr) as [k Hk]. exists (S k).
  unfold bracket in *. simpl. destruct (cumsums c' ps !! k) as [hk|] eqn:Ek; [|discriminate].
  apply andb_true_iff in Hk as [Hk1 Hk2]. rewrite Hk1. simpl.
  destruct k as [|k]; [|exact Hk2].
  simpl. rewrite Ecs in Hch. simpl in Hch. apply andb_true_iff in Hch as [Hcd _].
  apply js_le_false_lt; [| apply (js_lt_not_nan _ _ Hcd) | exact Er].
  unfold js_le in Hr. destruct (js_isnan r); [discriminate | reflexivity].
Qed.

Section WeightedPicker.

(** A table whose double prefix sums from [c] increase, with distinct
    entries; [hi] is its last prefix sum. *)
Context (ps : list PrizeObj) (c hi : float).
Hypothesis Hchain : chain_lt (cumsums c ps) = true.
Hypothesis Hnodup : NoDup ps.
Hypothesis Hlast : last (cumsums c ps) = Some hi.

(** The loop picks entry [k] exactly in its bracket. *)
Lemma loop_bracket_iff (r : float) (k : nat) (e : PrizeObj) :
  ps !! k = Some e -> js_le r hi = true ->
  generatePrize_loop r c ps = e <-> bracket (cumsums c ps) r k = true.
Proof.
  intros Hk Hr. split; [|apply loop_bracket; assumption].
  intros Hloop. destruct (bracket_cover r c ps hi Hchain Hlast Hr) as [k' Hk'].
  assert (is_Some (ps !! k')) as [e' He'].
  { apply lookup_lt_is_Some_2. unfold bracket in Hk'.
    destruct (cumsums c ps !! k') eqn:E; [|discriminate].
    apply lookup_lt_Some in E. rewrite <- (length_cumsums c ps). exact E. }
  rewrite (loop_bracket r c ps k' e' Hchain He' Hk') in Hloop. subst e'.
  rewrite (NoDup_lookup ps k k' e Hnodup Hk He'). exact Hk'.
Qed.

(** C5: The loop of [generatePrize] implements the weighted picker: for a
    draw not above the last prefix sum it returns entry [k] exactly when
    the draw lies in the bracket [(cs[k-1], cs[k]]] of the double prefix
    sums. *)
Theorem generatePrize_loop_refines (r : float) (k : nat) (e : PrizeObj) :
  ps !! k = Some e -> js_le r hi = true ->
  generatePrize_loop r c ps = e <-> bracket (cumsums c ps) r k = true.
Proof. eapply loop_bracket_iff; eassumption. Qed.

End WeightedPicker.

Lemma adjustedPrizes_chain : chain_lt (cumsums 0 adjustedPrizes) = true.
Proof. vm_compute. reflexivity. Qed.

(** The double accumulation of the tier probabilities ends at exactly 1.0. *)
Lemma adjustedPrizes_last : last (cumsums 0 adjustedPrizes) = Some 1%float.
Proof. vm_compute. reflexivity. Qed.

Lemma adjustedPrizes_nodup : NoDup adjustedPrizes.
Proof.
  apply (NoDup_fmap_1 (fun p => amount_string (amount p))).
  apply (bool_decide_unpack _). vm_compute. reflexivity.
Qed.

(** C18: [generatePrize] draws the k-th tier of [adjustedPrizes] exactly when
    its draw lies in the k-th bracket of the double prefix sums
    0.8, 0.9500000000000001, ..., 0.99995, 1.0. *)
Theorem generatePrize_tier_iff (r : float) (k : nat) (e : PrizeObj) :
  draw_ok r = true -> adjustedPrizes !! k = Some e ->
  generatePrize_loop r 0 adjustedPrizes = e <-> bracket (cumsums 0 adjustedPrizes) r k = true.
Proof.
  intros Hr Hk. apply (loop_bracket_iff adjustedPrizes 0 1);
    auto using adjustedPrizes_chain, adjustedPrizes_nodup, adjustedPrizes_last, draw_ok_le_1.
Qed.

(** [generatePrize] returns an entry of the table. *)
Lemma generatePrize_in_table (g : Rng) :
  rng_ok g -> fst (generatePrize g) ∈ adjustedPrizes.
Proof.
  intros Hg. unfold generatePrize, math_random. cbn [fst].
  destruct (bracket_cover (draws g (cursor g)) 0 adjustedPrizes 1)
    as [k Hk]; auto using adjustedPrizes_chain, adjustedPrizes_last, draw_ok_le_1.
  assert (is_Some (adjustedPrizes !! k)) as [e He].
  { apply lookup_lt_is_Some_2. unfold bracket in Hk.
    destruct (cumsums 0 adjustedPrizes !! k) eqn:E; [|discriminate].
    apply lookup_lt_Some in E. rewrite length_cumsums in E. exact E. }
  rewrite (loop_bracket _ _ _ k e adjustedPrizes_chain He Hk).
  eapply list_elem_of_lookup_2. exact He.
Qed.

(** C19: Because the double sum of the tier table is exactly 1.0, a draw in
    [0,1) never reaches the fallback of line 130: [generatePrize] returns
    an entry of [adjustedPrizes]. *)
Theorem generatePrize_no_fallback (g : Rng) :
  rng_ok g -> fst (generatePrize g) ∈ adjustedPrizes.
Proof. eapply generatePrize_in_table; eassumption. Qed.

(** C4: For every word and every stream of draws, the prize of the card has
    a positive amount exactly when its type is not [谢谢参与], and only a
    winning word carries a positive amount. *)
Theorem decidePrize_invariant (w : string) (g : Rng) :
  let p := fst (decidePrize (Symbols.isWinningWord w) g) in
  (js_lt 0 (amount p) = true <-> type p <> "谢谢参与") /\
  (js_lt 0 (amount p) = true -> Symbols.isWinningWord w = true).
Proof.
  cbv zeta. destruct (Symbols.isWinningWord w).
  - destruct (decidePrize_winning_amount g) as [Ha Ht]. rewrite Ht.
    assert (js_lt 0 (amount (fst (decidePrize true g))) = true) as Hpos
      by (eapply js_lt_le_trans; [| exact Ha]; reflexivity).
    rewrite Hpos. split; [split; [discriminate | reflexivity] | reflexivity].
  - cbn. split; [split; [discriminate | intros H; contradiction H; reflexivity] | discriminate].
Qed.

Lemma prizes_shown :
  Forall (fun p => js_num_eqb (amount p) 0 = false /\ amount_string (amount p) <> "")
    (minPrize :: defaultPrize :: adjustedPrizes).
Proof. repeat constructor; discriminate. Qed.

Lemma storePrize_lookup (p : PrizeObj) (b : bool) (ds : gmap string string) :
  storePrize p b ds !! "prizeAmount" = Some (amount_string (amount p)) /\
  storePrize p b ds !! "prizeType" = Some (type p) /\
  storePrize p b ds !! "isWinningWord" = Some (bool_string b).
Proof. unfold storePrize. split; [|split]; simplify_map_eq; reflexivity. Qed.

Lemma won_prizes_strings :
  Forall (fun p => js_num_eqb (amount p) 0 = false /\ amount_string (amount p) <> "0" /\ type p = "年假")
    (minPrize :: adjustedPrizes).
Proof. repeat constructor; discriminate. Qed.

Lemma decidePrize_draws (b : bool) (g : Rng) : draws (snd (decidePrize b g)) = draws g.
Proof. unfold decidePrize, generatePrize, math_random. destruct b; [destruct (js_lt _ _)|]; reflexivity. Qed.

Lemma decidePrize_won (g : Rng) :
  rng_ok g -> fst (decidePrize true g) = minPrize \/ fst (decidePrize true g) ∈ adjustedPrizes.
Proof.
  intros Hg. unfold decidePrize, math_random. cbn [fst snd draws cursor].
  destruct (js_lt _ 0.95); [left; reflexivity | right].
  apply generatePrize_in_table. intros n. apply Hg.
Qed.

(** What one card's setup stores: the dataset and the [no-prize] class
    follow whether the word wins, and the stream keeps its draws. *)
Lemma setupCardPrize_facts (w : string) (d : PrizeDisplay) (ds : gmap string string) (g : Rng) :
  rng_ok g ->
  let '(d', ds', g') := setupCardPrize w d ds g in
  ds' !! "isWinningWord" = Some (bool_string (Symbols.isWinningWord w)) /\
  (ds' !! "prizeAmount" = Some "0" <-> Symbols.isWinningWord w = false) /\
  (ds' !! "prizeType" = Some "谢谢参与" <-> Symbols.isWinningWord w = false) /\
  no_prize d' = negb (Symbols.isWinningWord w) || no_prize d /\
  draws g' = draws g.
Proof.
  intros Hg. unfold setupCardPrize.
  pose proof (decidePrize_draws (Symbols.isWinningWord w) g) as Hd.
  destruct (Symbols.isWinningWord w) eqn:Hw.
  - pose proof (decidePrize_won g Hg) as Hp. destruct (decidePrize true g) as [p g1]. cbn [fst snd] in Hp, Hd.
    pose proof won_prizes_strings as Hs. rewrite Forall_forall in Hs.
    destruct (Hs p) as (Hz & Hne & Ht); [destruct Hp as [-> | Hp]; [left | right]; assumption |].
    destruct (storePrize_lookup p true ds) as (H1 & H2 & H3).
    unfold showPrize. rewrite Hz. cbn [no_prize]. rewrite H1, H2, H3, Ht.
    repeat split; try discriminate; try congruence.
  - cbn [decidePrize]. destruct (storePrize_lookup noPrize false ds) as (H1 & H2 & H3).
    unfold showPrize, math_random. cbn [amount noPrize].
    replace (js_num_eqb 0 0) with true by reflexivity. cbn [no_prize draws]. rewrite H1, H2, H3.
    repeat split; reflexivity.
Qed.

(** C23: A card whose word does not win shows one of the decorative day
    counts of [fakeDayOptions], gets the [no-prize] class, stores the prize
    [{0, 谢谢参与}] as the strings "0" and "谢谢参与" in its dataset and
    consumes exactly one draw. *)
Theorem setupCardPrize_losing (w : string) (d : PrizeDisplay) (ds : gmap string string) (g : Rng) :
  rng_ok g -> Symbols.isWinningWord w = false ->
  let '(d', ds', g') := setupCardPrize w d ds g in
  amount_text d' ∈ fakeDayOptions /\ type_text d' = "" /\ no_prize d' = true /\
  ds' !! "prizeAmount" = Some "0" /\ ds' !! "prizeType" = Some "谢谢参与" /\
  ds' !! "isWinningWord" = Some "false" /\ cursor g' = S (cursor g).
Proof.
  intros Hg Hw. unfold setupCardPrize. rewrite Hw. cbn [decidePrize].
  destruct (js_pick_in_range fakeDayOptions (draws g (cursor g))) as (t & Ht & Hin);
    [apply Hg | discriminate |].
  destruct (storePrize_lookup noPrize false ds) as (H1 & H2 & H3).
  unfold showPrize, math_random. cbn [amount noPrize draws cursor].
  replace (js_num_eqb 0 0) with true by reflexivity. rewrite Ht.
  cbn [amount_text type_text no_prize Symbols.textContent_of cursor].
  rewrite H1, H2, H3. repeat split; assumption.
Qed.

(** C22: A card whose word wins shows its prize: the amount text is the
    amount followed by "天", the dataset holds the same amount and the type
    [年假], the [no-prize] class is left as it was, and with draws in [0,1)
    the prize is the clamp [minPrize] or an entry of [adjustedPrizes]. *)
Theorem setupCardPrize_winning (w : string) (d : PrizeDisplay) (ds : gmap string string) (g : Rng) :
  rng_ok g -> Symbols.isWinningWord w = true ->
  let '(d', ds', g') := setupCardPrize w d ds g in
  exists p, (p = minPrize \/ p ∈ adjustedPrizes) /\
    amount_string (amount p) <> "" /\
    amount_text d' = amount_string (amount p) +:+ "天" /\ type_text d' = "" /\
    no_prize d' = no_prize d /\
    ds' !! "prizeAmount" = Some (amount_string (amount p)) /\
    ds' !! "prizeType" = Some "年假" /\ ds' !! "isWinningWord" = Some "true".
Proof.
  intros Hg Hw. unfold setupCardPrize. rewrite Hw.
  assert (Hp : fst (decidePrize true g) = minPrize \/ fst (decidePrize true g) ∈ adjustedPrizes).
  { unfold decidePrize, math_random. cbn [fst snd draws cursor].
    destruct (js_lt _ 0.95); [left; reflexivity | right].
    apply generatePrize_in_table. intros n. apply Hg. }
  destruct (decidePrize_winning_amount g) as [_ Ht].
  destruct (decidePrize true g) as [p g1]. cbn [fst] in Hp, Ht.
  pose proof prizes_shown as Hs. rewrite Forall_forall in Hs.
  destruct (Hs p) as [Hz Hne]; [destruct Hp as [-> | Hp]; [left | right; right]; assumption |].
  unfold showPrize. rewrite Hz. cbn [amount_text type_text no_prize].
  destruct (storePrize_lookup p true ds) as (H1 & H2 & H3).
  exists p. rewrite H1, H2, H3, Ht. repeat split; assumption.
Qed.

(** ** Witnesses, at the spec's test values *)

Lemma draw_ok_999999 : draw_ok 0.999999 = true.
Proof. vm_compute. reflexivity. Qed.

(** The top tier: a tier draw of 0.999999 gives 100 days. *)
Lemma generatePrize_loop_refines_witness :
  generatePrize_loop 0.999999 0 adjustedPrizes = mkPrize 100 "年假" (Some 0.00005%float) <->
  bracket (cumsums 0 adjustedPrizes) 0.999999 6 = true.
Proof.
  apply (generatePrize_loop_refines adjustedPrizes 0 1 adjustedPrizes_chain
           adjustedPrizes_nodup adjustedPrizes_last 0.999999 6);
    vm_compute; reflexivity.
Defined.

Lemma generatePrize_tier_iff_witness :
  draw_ok 0.999999 = true /\ adjustedPrizes !! 6%nat = Some (mkPrize 100 "年假" (Some 0.00005%float)) /\
  (generatePrize_loop 0.999999 0 adjustedPrizes = mkPrize 100 "年假" (Some 0.00005%float) <->
   bracket (cumsums 0 adjustedPrizes) 0.999999 6 = true) /\
  bracket (cumsums 0 adjustedPrizes) 0.999999 6 = true.
Proof.
  split; [exact draw_ok_999999 |]. split; [reflexivity |]. split; [|vm_compute; reflexivity].
  apply generatePrize_tier_iff; [exact draw_ok_999999 | reflexivity].
Defined.

Lemma stream_ok_99 : rng_ok (rng_of_list [0.99; 0.999999]%float).
Proof. apply rng_of_list_ok. vm_compute. reflexivity. Qed.

Lemma generatePrize_no_fallback_witness :
  rng_ok (rng_of_list [0.99; 0.999999]%float) /\
  fst (generatePrize (rng_of_list [0.99; 0.999999]%float)) ∈ adjustedPrizes.
Proof.
  split; [exact stream_ok_99 |]. exact (generatePrize_no_fallback _ stream_ok_99).
Defined.

Lemma setupCardPrize_losing_witness :
  rng_ok (rng_of_list [0.5]%float) /\ Symbols.isWinningWord "欢" = false /\
  let '(d', ds', g') := setupCardPrize "欢" (mkDisplay "" "" false) ∅ (rng_of_list [0.5]%float) in
  amount_text d' ∈ fakeDayOptions /\ type_text d' = "" /\ no_prize d' = true /\
  ds' !! "prizeAmount" = Some "0" /\ ds' !! "prizeType" = Some "谢谢参与" /\
  ds' !! "isWinningWord" = Some "false" /\ cursor g' = 1%nat.
Proof.
  assert (H : rng_ok (rng_of_list [0.5]%float)) by (apply rng_of_list_ok; vm_compute; reflexivity).
  split; [exact H |]. split; [reflexivity |].
  exact (setupCardPrize_losing "欢" (mkDisplay "" "" false) ∅ _ H eq_refl).
Defined.

(** The spec's example: a winning word, a gate draw of 0.99 and a tier draw
    of 0.999999 give 100 days. *)
Lemma setupCardPrize_winning_witness :
  rng_ok (rng_of_list [0.99; 0.999999]%float) /\ Symbols.isWinningWord "福" = true /\
  (let '(d', ds', g') := setupCardPrize "福" (mkDisplay "" "" false) ∅ (rng_of_list [0.99; 0.999999]%float) in
   exists p, (p = minPrize \/ p ∈ adjustedPrizes) /\
    amount_string (amount p) <> "" /\
    amount_text d' = amount_string (amount p) +:+ "天" /\ type_text d' = "" /\
    no_prize d' = false /\
    ds' !! "prizeAmount" = Some (amount_string (amount p)) /\
    ds' !! "prizeType" = Some "年假" /\ ds' !! "isWinningWord" = Some "true") /\
  amount_text (fst (fst (setupCardPrize "福" (mkDisplay "" "" false) ∅
    (rng_of_list [0.99; 0.999999]%float)))) = "100天".
Proof.
  split; [exact stream_ok_99 |]. split; [reflexivity |]. split; [|vm_compute; reflexivity].
  exact (setupCardPrize_winning "福" (mkDisplay "" "" false) ∅ _ stream_ok_99 eq_refl).
Defined.


End Prizes.
