(* ===== verification/Surface.v ===== *)
(** * Surface: the canvas the overlay of a card is drawn on

    The program uses six primitives of the 2D canvas: setting
    [canvas.width]/[canvas.height] (a fresh transparent bitmap, lines
    138-139), [fillRect] with the silver gradient (lines 142-148), [fillText]
    (lines 151-156), the [destination-out] disc of [scratch] (lines
    176-179), [clearRect] (line 245) and [getImageData] (line 225).  The
    spec treats them as a capability the tracker consumes: the typeclass
    [Surface2D] lists them and [Surface2DLaws] states what the program
    relies on, on the alpha channel, the only channel it reads.

    [AlphaCanvas] is an instance that discharges the laws: a [w] x [h] grid
    of alpha bytes, a disc covering the pixels whose centre lies in it.  It
    keeps only the alpha plane ([getImageData] answers RGB bytes 0): the
    gradient colours and the glyphs of [fillText] are not modelled, and
    [fillText] over the opaque overlay leaves every alpha at 255.

    [calculateScratchedArea] (lines 224-236) is the loop
    [for (i = 3; i < pixels.length; i += 4)] over the RGBA bytes, with fuel;
    it is proved equal to the count of zero bytes of the alpha plane. *)

From Stdlib Require Import Floats QArith Qround ZArith Lia Lqa.
From stdpp Require Import base list.
From S2P Require Import Prelude.

Set Warnings "-inexact-float".

(** The alpha bytes of RGBA data: every fourth byte, from index 3. *)
Fixpoint alphas (d : list Z) : list Z :=
  match d with
  | _ :: _ :: _ :: a :: rest => a :: alphas rest
  | _ => []
  end.

(** The number of transparent pixels of an alpha plane. *)
Fixpoint count_zero (l : list Z) : Z :=
  match l with
  | [] => 0
  | a :: l' => (if (a =? 0)%Z then 1 else 0) + count_zero l'
  end.

(** WebIDL [unsigned long] conversion of a number ([canvas.width = x]):
    truncation toward zero, modulo 2^32; NaN and infinities give 0. *)
Definition js_to_uint32 (f : float) : Z :=
  match numview_of f with
  | NV_Fin q => ((if Qle_bool 0 q then Qfloor q else Qceiling q) mod 2 ^ 32)%Z
  | _ => 0%Z
  end.

Class Surface2D (Sf : Type) := {
  surf_width : Sf -> Z;
  surf_height : Sf -> Z;
  (** [canvas.width = w; canvas.height = h] *)
  surf_resize : Z -> Z -> Sf -> Sf;
  (** [ctx.fillRect(0, 0, width, height)] with an opaque style *)
  surf_fill_rect : Sf -> Sf;
  (** [ctx.fillText(...)] with an opaque colour *)
  surf_fill_text : Sf -> Sf;
  (** [globalCompositeOperation = 'destination-out'; arc(x, y, r); fill()] *)
  surf_erase_disc : float -> float -> float -> Sf -> Sf;
  (** [ctx.clearRect(0, 0, width, height)] *)
  surf_clear_rect : Sf -> Sf;
  (** [ctx.getImageData(0, 0, width, height).data] *)
  surf_image_data : Sf -> list Z
}.

Definition surf_alpha {Sf : Type} `{!Surface2D Sf} (s : Sf) : list Z := alphas (surf_image_data s).

Definition surf_dims {Sf : Type} `{!Surface2D Sf} (s : Sf) : Z * Z := (surf_width s, surf_height s).

Class Surface2DLaws (Sf : Type) `{!Surface2D Sf} := {
  surf_dims_nonneg s : (0 <= surf_width s)%Z /\ (0 <= surf_height s)%Z;
  surf_alpha_length s : length (surf_alpha s) = Z.to_nat (surf_width s * surf_height s);
  surf_alpha_bytes s : Forall (fun a => 0 <= a <= 255)%Z (surf_alpha s);
  surf_resize_dims w h s : (0 <= w)%Z -> (0 <= h)%Z -> surf_dims (surf_resize w h s) = (w, h);
  surf_resize_clear w h s : Forall (fun a => a = 0%Z) (surf_alpha (surf_resize w h s));
  surf_fill_rect_dims s : surf_dims (surf_fill_rect s) = surf_dims s;
  surf_fill_rect_opaque s : Forall (fun a => a = 255%Z) (surf_alpha (surf_fill_rect s));
  surf_fill_text_dims s : surf_dims (surf_fill_text s) = surf_dims s;
  surf_fill_text_opaque s :
    Forall2 (fun a b => a = 255%Z -> b = 255%Z) (surf_alpha s) (surf_alpha (surf_fill_text s));
  surf_erase_dims x y r s : surf_dims (surf_erase_disc x y r s) = surf_dims s;
  (** erasing never makes a transparent pixel visible again *)
  surf_erase_keeps x y r s :
    Forall2 (fun a b => a = 0%Z -> b = 0%Z) (surf_alpha s) (surf_alpha (surf_erase_disc x y r s));
  surf_clear_dims s : surf_dims (surf_clear_rect s) = surf_dims s;
  surf_clear_transparent s : Forall (fun a => a = 0%Z) (surf_alpha (surf_clear_rect s))
}.

(** ** [calculateScratchedArea] *)

(** The loop of lines 229-233 from index [i] with [transparentPixels = acc]. *)
Fixpoint scan_loop (fuel : nat) (pixels : list Z) (i : nat) (acc : Z) : Z :=
  match fuel with
  | O => acc
  | S fuel' =>
      if (i <? length pixels)%nat then
        let acc' := match pixels !! i with
                    | Some v => if (v =? 0)%Z then (acc + 1)%Z else acc
                    | None => acc
                    end in
        scan_loop fuel' pixels (i + 4) acc'
      else acc
  end.

(** [calculateScratchedArea(canvas, ctx)] on the data of [getImageData];
    the loop runs at most [length pixels] times. *)
Definition calculateScratchedArea_data (pixels : list Z) : Z :=
  scan_loop (length pixels) pixels 3 0.

Definition calculateScratchedArea {Sf : Type} `{!Surface2D Sf} (s : Sf) : Z :=
  calculateScratchedArea_data (surf_image_data s).

(** The drawing of [setupCanvas] (lines 137-156): the size from the
    bounding rectangle, the gradient fill and the two lines of text. *)
Definition setupCanvas_draw {Sf : Type} `{!Surface2D Sf} (rect_width rect_height : float) (s : Sf) : Sf :=
  surf_fill_text (surf_fill_text (surf_fill_rect
    (surf_resize (js_to_uint32 rect_width) (js_to_uint32 rect_height) s))).

(** ** An instance: the alpha plane of a [w] x [h] canvas *)

Record AlphaCanvas := mkAlphaCanvas {
  ac_w : Z;
  ac_h : Z;
  ac_alpha : list Z;
  ac_w_nonneg : (0 <= ac_w)%Z;
  ac_h_nonneg : (0 <= ac_h)%Z;
  ac_len : length ac_alpha = Z.to_nat (ac_w * ac_h);
  ac_bytes : Forall (fun a => 0 <= a <= 255)%Z ac_alpha
}.

(** The pixel [i] (row-major) has its centre in the disc of centre
    [(x, y)] and radius [r]. *)
Definition pixel_in_disc (w : Z) (x y r : float) (i : nat) : bool :=
  let px := (inject_Z (Z.of_nat i mod w)%Z + (1 # 2))%Q in
  let py := (inject_Z (Z.of_nat i / w)%Z + (1 # 2))%Q in
  Qle_bool ((px - fval x) * (px - fval x) + (py - fval y) * (py - fval y))%Q (fval r * fval r)%Q.

(** Rebuild a canvas of the same size from a new alpha plane. *)
Definition ac_map (f : nat -> Z -> Z) (Hf : forall i a, (0 <= a <= 255)%Z -> (0 <= f i a <= 255)%Z)
  (c : AlphaCanvas) : AlphaCanvas.
Proof.
  refine (mkAlphaCanvas (ac_w c) (ac_h c) (imap f (ac_alpha c)) (ac_w_nonneg c) (ac_h_nonneg c) _ _).
  - rewrite length_imap. apply ac_len.
  - apply Forall_lookup_2. intros i a Hi. rewrite list_lookup_imap in Hi.
    destruct (ac_alpha c !! i) as [b|] eqn:E; [|discriminate]. injection Hi as <-.
    apply Hf. eapply (Forall_lookup_1 (fun a => 0 <= a <= 255)%Z); [apply ac_bytes | exact E].
Defined.

Definition ac_const (v : Z) (Hv : (0 <= v <= 255)%Z) (w h : Z) : AlphaCanvas.
Proof.
  refine (mkAlphaCanvas (Z.max 0 w) (Z.max 0 h) (replicate (Z.to_nat (Z.max 0 w * Z.max 0 h)) v)
            _ _ _ _); [lia | lia | apply length_replicate |].
  apply Forall_replicate. exact Hv.
Defined.

Definition ac_erase_disc (x y r : float) (c : AlphaCanvas) : AlphaCanvas.
Proof.
  refine (ac_map (fun i a => if pixel_in_disc (ac_w c) x y r i then 0%Z else a) _ c).
  intros i a Ha. destruct (pixel_in_disc _ _ _ _ _); lia.
Defined.

#[export] Instance AlphaCanvas_surface : Surface2D AlphaCanvas := {
  surf_width := ac_w;
  surf_height := ac_h;
  surf_resize w h _ := ac_const 0 ltac:(lia) w h;
  surf_fill_rect c := ac_map (fun _ _ => 255%Z) ltac:(intros; lia) c;
  surf_fill_text c := c;
  surf_erase_disc := ac_erase_disc;
  surf_clear_rect c := ac_map (fun _ _ => 0%Z) ltac:(intros; lia) c;
  surf_image_data c := flat_map (fun a => [0; 0; 0; a]%Z) (ac_alpha c)
}.

(** ** Theorems *)

Lemma alphas_short (l : list Z) : (length l <= 3)%nat -> alphas l = [].
Proof. intros H. destruct l as [|a [|b [|c [|e l]]]]; simpl in *; try reflexivity; lia. Qed.

Lemma drop_four (d : list Z) (n : nat) :
  (n + 3 < length d)%nat ->
  exists a b c e, drop n d = a :: b :: c :: e :: drop (n + 4) d /\ d !! (n + 3)%nat = Some e.
Proof.
  intros H.
  destruct (lookup_lt_is_Some_2 d n) as [a Ha]; [lia|].
  destruct (lookup_lt_is_Some_2 d (S n)) as [b Hb]; [lia|].
  destruct (lookup_lt_is_Some_2 d (S (S n))) as [c Hc]; [lia|].
  destruct (lookup_lt_is_Some_2 d (S (S (S n)))) as [e He]; [lia|].
  exists a, b, c, e. split.
  - rewrite (drop_S d a n Ha), (drop_S d b _ Hb), (drop_S d c _ Hc), (drop_S d e _ He).
    do 4 f_equal. f_equal. lia.
  - replace (n + 3)%nat with (S (S (S n))) by lia. exact He.
Qed.

Lemma scan_loop_spec (fuel : nat) (d : list Z) (k : nat) (acc : Z) :
  (length d <= 4 * k + 4 * fuel)%nat ->
  scan_loop fuel d (4 * k + 3) acc = (acc + count_zero (alphas (drop (4 * k) d)))%Z.
Proof.
  revert k acc. induction fuel as [|fuel IH]; intros k acc Hlen; cbn [scan_loop].
  - rewrite drop_ge by lia. simpl. lia.
  - destruct (Nat.ltb_spec (4 * k + 3) (length d)) as [Hlt | Hge].
    + destruct (drop_four d (4 * k) Hlt) as (a & b & c & e & Hd & He).
      rewrite He, Hd. replace (4 * k + 3 + 4)%nat with (4 * S k + 3)%nat by lia.
      rewrite IH by lia. replace (4 * k + 4)%nat with (4 * S k)%nat by lia.
      simpl. destruct (e =? 0)%Z; lia.
    + rewrite alphas_short; [simpl; lia |]. rewrite length_drop. lia.
Qed.

Lemma calculateScratchedArea_data_count (d : list Z) :
  calculateScratchedArea_data d = count_zero (alphas d).
Proof.
  unfold calculateScratchedArea_data.
  change 3%nat with (4 * 0 + 3)%nat. rewrite scan_loop_spec by lia. rewrite Nat.mul_0_r, drop_0. lia.
Qed.

(** C7: [calculateScratchedArea]'s loop over the RGBA bytes of
    [getImageData] counts exactly the zero bytes of the alpha plane (the
    loop [for (i = 3; i < n; i += 4)] equals the reference count), and it
    terminates: with any fuel of at least [n / 4] iterations the loop
    returns the same count, so the fuel [n] of the model is enough. *)
Theorem calculateScratchedArea_data_spec (d : list Z) :
  calculateScratchedArea_data d = count_zero (alphas d) /\
  forall fuel, (length d <= 4 * fuel)%nat -> scan_loop fuel d 3 0 = calculateScratchedArea_data d.
Proof.
  rewrite calculateScratchedArea_data_count. split; [reflexivity|].
  intros fuel Hf. change 3%nat with (4 * 0 + 3)%nat. rewrite scan_loop_spec by lia.
  rewrite Nat.mul_0_r, drop_0. lia.
Qed.

Lemma count_zero_mono (l1 l2 : list Z) :
  Forall2 (fun a b => a = 0%Z -> b = 0%Z) l1 l2 -> (count_zero l1 <= count_zero l2)%Z.
Proof.
  induction 1 as [|a b l1 l2 Hab _ IH]; simpl; [lia|].
  destruct (Z.eqb_spec a 0) as [Ha|Ha]; [rewrite (Hab Ha); simpl; lia |].
  destruct (b =? 0)%Z; lia.
Qed.

Lemma count_zero_bounds (l : list Z) : (0 <= count_zero l <= Z.of_nat (length l))%Z.
Proof. induction l as [|a l IH]; simpl; [lia|]. destruct (a =? 0)%Z; lia. Qed.

Lemma count_zero_all (l : list Z) : Forall (fun a => a = 0%Z) l -> count_zero l = Z.of_nat (length l).
Proof. induction 1 as [|a l -> _ IH]; simpl; lia. Qed.

Lemma count_zero_none (l : list Z) (v : Z) :
  v <> 0%Z -> Forall (fun a => a = v) l -> count_zero l = 0%Z.
Proof.
  intros Hv. induction 1 as [|a l -> _ IH]; simpl; [reflexivity|].
  destruct (Z.eqb_spec v 0); [contradiction | lia].
Qed.

Lemma alphas_rgba (l : list Z) : alphas (flat_map (fun a => [0; 0; 0; a]%Z) l) = l.
Proof. induction l as [|a l IH]; simpl; [reflexivity | rewrite IH; reflexivity]. Qed.

Lemma Forall2_imap_same {A} (P : A -> A -> Prop) (f : nat -> A -> A) (l : list A) :
  (forall i a, l !! i = Some a -> P a (f i a)) -> Forall2 P l (imap f l).
Proof.
  intros H. apply Forall2_lookup. intros i. rewrite list_lookup_imap.
  destruct (l !! i) as [a|] eqn:E; constructor. apply H. exact E.
Qed.

Lemma Forall_imap_const {A} (P : A -> Prop) (f : nat -> A -> A) (l : list A) :
  (forall i a, P (f i a)) -> Forall P (imap f l).
Proof.
  intros H. apply Forall_lookup_2. intros i a Hi. rewrite list_lookup_imap in Hi.
  destruct (l !! i); [injection Hi as <-; apply H | discriminate].
Qed.

#[export] Instance AlphaCanvas_laws : Surface2DLaws AlphaCanvas.
Proof.
  split; unfold surf_alpha, surf_dims; cbn [surf_width surf_height surf_resize surf_fill_rect
    surf_fill_text surf_erase_disc surf_clear_rect surf_image_data AlphaCanvas_surface];
    intros; rewrite ?alphas_rgba.
  - split; [apply ac_w_nonneg | apply ac_h_nonneg].
  - apply ac_len.
  - apply ac_bytes.
  - simpl. f_equal; lia.
  - apply Forall_replicate. reflexivity.
  - reflexivity.
  - apply Forall_imap_const. reflexivity.
  - reflexivity.
  - apply Forall_Forall2_diag, Forall_forall. auto.
  - reflexivity.
  - apply Forall2_imap_same. intros i a _ ->. destruct (pixel_in_disc _ _ _ _ _); reflexivity.
  - reflexivity.
  - apply Forall_imap_const. reflexivity.
Qed.

Section SurfaceFacts.

Context {Sf : Type} `{!Surface2D Sf} `{!Surface2DLaws Sf}.

Lemma calculateScratchedArea_alpha (s : Sf) : calculateScratchedArea s = count_zero (surf_alpha s).
Proof. apply calculateScratchedArea_data_count. Qed.

Lemma calculateScratchedArea_bounds (s : Sf) :
  (0 <= calculateScratchedArea s <= surf_width s * surf_height s)%Z.
Proof.
  rewrite calculateScratchedArea_alpha. pose proof (count_zero_bounds (surf_alpha s)) as H.
  rewrite surf_alpha_length in H. pose proof (surf_dims_nonneg s). lia.
Qed.

Lemma calculateScratchedArea_erase_mono (x y r : float) (s : Sf) :
  (calculateScratchedArea s <= calculateScratchedArea (surf_erase_disc x y r s))%Z.
Proof. rewrite !calculateScratchedArea_alpha. apply count_zero_mono, surf_erase_keeps. Qed.

Lemma calculateScratchedArea_clear (s : Sf) :
  calculateScratchedArea (surf_clear_rect s) = (surf_width s * surf_height s)%Z.
Proof.
  rewrite calculateScratchedArea_alpha, count_zero_all by apply surf_clear_transparent.
  rewrite surf_alpha_length. pose proof (surf_clear_dims s) as E. unfold surf_dims in E.
  injection E as -> ->. pose proof (surf_dims_nonneg s). lia.
Qed.

Lemma surf_erase_width (x y r : float) (s : Sf) :
  surf_width (surf_erase_disc x y r s) = surf_width s /\ surf_height (surf_erase_disc x y r s) = surf_height s.
Proof. pose proof (surf_erase_dims x y r s) as E. unfold surf_dims in E. injection E. auto. Qed.

Lemma surf_clear_width (s : Sf) :
  surf_width (surf_clear_rect s) = surf_width s /\ surf_height (surf_clear_rect s) = surf_height s.
Proof. pose proof (surf_clear_dims s) as E. unfold surf_dims in E. injection E. auto. Qed.

Lemma fill_text_keeps_opaque (s : Sf) :
  Forall (fun a => a = 255%Z) (surf_alpha s) -> Forall (fun a => a = 255%Z) (surf_alpha (surf_fill_text s)).
Proof.
  intros H. pose proof (surf_fill_text_opaque s) as H2.
  induction H2 as [|a b l1 l2 Hab _ IH]; [constructor|].
  inversion H; subst. constructor; auto.
Qed.

Lemma setupCanvas_draw_dims (rw rh : float) (s : Sf) :
  surf_dims (setupCanvas_draw rw rh s) = (js_to_uint32 rw, js_to_uint32 rh).
Proof.
  unfold setupCanvas_draw. rewrite !surf_fill_text_dims, surf_fill_rect_dims.
  apply surf_resize_dims; unfold js_to_uint32; destruct (numview_of _); try lia; apply Z.mod_pos_bound; lia.
Qed.

Lemma setupCanvas_draw_alpha (rw rh : float) (s : Sf) :
  Forall (fun a => a = 255%Z) (surf_alpha (setupCanvas_draw rw rh s)).
Proof. apply fill_text_keeps_opaque, fill_text_keeps_opaque, surf_fill_rect_opaque. Qed.

Lemma setupCanvas_draw_area (rw rh : float) (s : Sf) :
  calculateScratchedArea (setupCanvas_draw rw rh s) = 0%Z.
Proof.
  rewrite calculateScratchedArea_alpha. apply (count_zero_none _ 255); [discriminate|].
  apply setupCanvas_draw_alpha.
Qed.

(** C24: The overlay drawn by [setupCanvas] has the size of the card's
    bounding rectangle (converted as [unsigned long]), whatever the canvas
    held before, every one of its [width * height] pixels is opaque, and
    so [calculateScratchedArea] starts at 0. *)
Theorem setupCanvas_draw_opaque (rw rh : float) (s : Sf) :
  surf_dims (setupCanvas_draw rw rh s) = (js_to_uint32 rw, js_to_uint32 rh) /\
  length (surf_alpha (setupCanvas_draw rw rh s)) = Z.to_nat (js_to_uint32 rw * js_to_uint32 rh) /\
  Forall (fun a => a = 255%Z) (surf_alpha (setupCanvas_draw rw rh s)) /\
  calculateScratchedArea (setupCanvas_draw rw rh s) = 0%Z.
Proof.
  pose proof (setupCanvas_draw_dims rw rh s) as E.
  split; [exact E|]. split; [|split; [apply setupCanvas_draw_alpha | apply setupCanvas_draw_area]].
  rewrite surf_alpha_length. unfold surf_dims in E. injection E as -> ->. reflexivity.
Qed.

End SurfaceFacts.

#[export] Hint Resolve calculateScratchedArea_erase_mono calculateScratchedArea_bounds : wol.
