(* ===== verification/Scratch.v ===== *)
(** * Scratch: the handlers of [setupScratching] and [revealPrize]

    Models [ScratchCard.setupScratching] (src/script.js, lines 162-222) and
    [ScratchCard.revealPrize] (lines 238-257), and [showWinningEffect]
    (lines 259-288).  Every call of [setupScratching] creates a closure with
    its own [isScratching], [scratchedArea] and [totalArea] ([Closure]) and
    registers seven listeners on the canvas; a card keeps the list of its
    closures, in registration order, and the DOM runs the listener of each
    closure in that order ([run_listeners]), an exception of one listener
    being reported without stopping the next ones.

    The set [this.scratchedCards] is shared by all cards and keyed by
    [card.dataset.cardId], a string or [undefined] ([option string]).
    [revealPrize] evaluates [showWinningEffect(card, prizeAmount,
    isWinningWord)] after its state changes; [prizeAmount] is not a variable
    in scope, so the call throws a ReferenceError and the celebration is
    never shown.

    The test [scratchedArea / totalArea >= scratchThreshold] is taken on the
    exact quotient; the double quotient of two integers below 2^53 is at
    least 0.5 exactly when the exact one is (0.5 is a double and rounding is
    monotone; a quotient below 0.5 is at least 1/(2 * totalArea) away from
    it), and [x / 0] is NaN for [x = 0], +Infinity otherwise. *)

From Stdlib Require Import Floats QArith Qround ZArith Lia Lqa.
From stdpp Require Import base list gmap strings.
From S2P Require Import Prelude Symbols Prizes Surface.

Set Warnings "-inexact-float".

Module Scratch.

Local Open Scope string_scope.

(** [canvas.getBoundingClientRect()]. *)
Record Rect := mkRect { rect_left : float; rect_top : float; rect_width : float; rect_height : float }.

(** The variables of one [setupScratching] closure (lines 163-166);
    [scratchThreshold] is the constant 0.5. *)
Record Closure := mkClosure { isScratching : bool; scratchedArea : Z; totalArea : Z }.

(** A [.scratch-card] element and what the program reads and writes of it. *)
Record Card (Sf : Type) := mkCard {
  card_lucky_word : string;
  card_display : Prizes.PrizeDisplay;
  card_dataset : gmap string string;
  card_scratched : bool;
  card_rect : Rect;
  card_canvas : Sf;
  card_closures : list Closure;
  card_celebrations : nat;
  card_position_relative : bool
}.

Arguments mkCard {Sf}.
Arguments card_lucky_word {Sf}. Arguments card_display {Sf}. Arguments card_dataset {Sf}.
Arguments card_scratched {Sf}. Arguments card_rect {Sf}. Arguments card_canvas {Sf}.
Arguments card_closures {Sf}. Arguments card_celebrations {Sf}. Arguments card_position_relative {Sf}.

(** The registry [this.scratchedCards]. *)
Abbreviation Registry := (gset (option string)).

(** The event types the canvas listens to (lines 213-221). *)
Inductive EventType := MouseDown | MouseMove | MouseUp | MouseLeave | TouchStart | TouchMove | TouchEnd.

(** A mouse or touch event: [clientX]/[clientY] ([None] is [undefined], as
    on a TouchEvent) and [touches] ([None] on a MouseEvent). *)
Record PointerEvent := mkEvent {
  ev_clientX : option float;
  ev_clientY : option float;
  ev_touches : option (list (float * float))
}.

(** What a listener did: the registry, the card, its closure, the exception
    it threw and whether [revealPrize] passed its guard. *)
Record Outcome (Sf : Type) := mkOutcome {
  o_reg : Registry;
  o_card : Card Sf;
  o_closure : Closure;
  o_error : option js_error;
  o_revealed : bool
}.

Arguments mkOutcome {Sf}.
Arguments o_reg {Sf}. Arguments o_card {Sf}. Arguments o_closure {Sf}.
Arguments o_error {Sf}. Arguments o_revealed {Sf}.

(** The key of a card in the registry: [card.dataset.cardId]. *)
Definition cardId {Sf} (c : Card Sf) : option string := card_dataset c !! "cardId".

Definition set_canvas {Sf} (s : Sf) (c : Card Sf) : Card Sf :=
  mkCard (card_lucky_word c) (card_display c) (card_dataset c) (card_scratched c) (card_rect c)
    s (card_closures c) (card_celebrations c) (card_position_relative c).

Definition set_scratched {Sf} (b : bool) (c : Card Sf) : Card Sf :=
  mkCard (card_lucky_word c) (card_display c) (card_dataset c) b (card_rect c)
    (card_canvas c) (card_closures c) (card_celebrations c) (card_position_relative c).

Definition set_closures {Sf} (cls : list Closure) (c : Card Sf) : Card Sf :=
  mkCard (card_lucky_word c) (card_display c) (card_dataset c) (card_scratched c) (card_rect c)
    (card_canvas c) cls (card_celebrations c) (card_position_relative c).

(** A number is truthy unless it is 0 or NaN; [undefined] is falsy. *)
Definition js_truthy_number (v : option float) : bool :=
  match v with
  | Some f => negb (js_isnan f) && negb (js_num_eqb f 0)
  | None => false
  end.

(** [e.touches[0]]. *)
Definition first_touch (ts : option (list (float * float))) : (float * float) + js_error :=
  match ts with
  | None => inr (TypeError "Cannot read properties of undefined (reading '0')")
  | Some [] => inr (TypeError "Cannot read properties of undefined (reading 'clientX')")
  | Some (t :: _) => inl t
  end.

(** [(e.clientX || e.touches[0].clientX)], and the same for [Y]. *)
Definition client_coord (own : option float) (pick : float * float -> float)
  (ts : option (list (float * float))) : float + js_error :=
  match own with
  | Some f => if js_truthy_number own then inl f else
               match first_touch ts with inl t => inl (pick t) | inr err => inr err end
  | None => match first_touch ts with inl t => inl (pick t) | inr err => inr err end
  end.

(** [getMousePos] (lines 168-173): [x] is computed first. *)
Definition getMousePos (rect : Rect) (e : PointerEvent) : (float * float) + js_error :=
  match client_coord (ev_clientX e) fst (ev_touches e) with
  | inr err => inr err
  | inl cx =>
      match client_coord (ev_clientY e) snd (ev_touches e) with
      | inr err => inr err
      | inl cy => inl ((cx - rect_left rect)%float, (cy - rect_top rect)%float)
      end
  end.

(** [scratchedArea / totalArea >= scratchThreshold] with the threshold 0.5. *)
Definition threshold_reached (area total : Z) : bool :=
  if (total =? 0)%Z then (0 <? area)%Z
  else Qle_bool (1 # 2) (inject_Z area / inject_Z total).

Section Handlers.

Context {Sf : Type} `{!Surface2D Sf}.

(** [scratch(x, y)] (lines 175-183): a disc of radius 20 is erased; the
    area it computes on line 182 is discarded. *)
Definition scratch (x y : float) (s : Sf) : Sf := surf_erase_disc x y 20 s.

(** [revealPrize(card, canvas)] (lines 238-257): the guard, [clearRect],
    [scratchedCards.add], [classList.add('scratched')], then the
    ReferenceError of the [showWinningEffect] call. *)
Definition revealPrize (reg : Registry) (c : Card Sf) : Registry * Card Sf * option js_error * bool :=
  if bool_decide (cardId c ∈ reg) then (reg, c, None, false)
  else ({[cardId c]} ∪ reg,
        set_scratched true (set_canvas (surf_clear_rect (card_canvas c)) c),
        Some (ReferenceError "prizeAmount"), true).

(** [startScratching(e)] (lines 185-193). *)
Definition startScratching (reg : Registry) (c : Card Sf) (cl : Closure) (e : PointerEvent) : Outcome Sf :=
  if bool_decide (cardId c ∈ reg) then mkOutcome reg c cl None false
  else
    let cl1 := mkClosure true (scratchedArea cl) (totalArea cl) in
    match getMousePos (card_rect c) e with
    | inr err => mkOutcome reg c cl1 (Some err) false
    | inl (x, y) => mkOutcome reg (set_canvas (scratch x y (card_canvas c)) c) cl1 None false
    end.

(** [scratchMove(e)] (lines 195-206). *)
Definition scratchMove (reg : Registry) (c : Card Sf) (cl : Closure) (e : PointerEvent) : Outcome Sf :=
  if negb (isScratching cl) then mkOutcome reg c cl None false
  else
    match getMousePos (card_rect c) e with
    | inr err => mkOutcome reg c cl (Some err) false
    | inl (x, y) =>
        let c1 := set_canvas (scratch x y (card_canvas c)) c in
        let area := calculateScratchedArea (card_canvas c1) in
        let cl1 := mkClosure (isScratching cl) area (totalArea cl) in
        if threshold_reached area (totalArea cl) then
          let '(reg2, c2, err, rev) := revealPrize reg c1 in mkOutcome reg2 c2 cl1 err rev
        else mkOutcome reg c1 cl1 None false
    end.

(** [endScratching()] (lines 208-210). *)
Definition endScratching (reg : Registry) (c : Card Sf) (cl : Closure) : Outcome Sf :=
  mkOutcome reg c (mkClosure false (scratchedArea cl) (totalArea cl)) None false.

(** The listener one closure registered for an event type (lines 213-221). *)
Definition listener (t : EventType) (reg : Registry) (c : Card Sf) (cl : Closure) (e : PointerEvent) :
  Outcome Sf :=
  match t with
  | MouseDown | TouchStart => startScratching reg c cl e
  | MouseMove | TouchMove => scratchMove reg c cl e
  | MouseUp | MouseLeave | TouchEnd => endScratching reg c cl
  end.

(** Dispatch of one event to the listeners of a card, closure by closure
    in registration order: the new closures, the exceptions reported and
    the number of reveals. *)
Fixpoint run_listeners (t : EventType) (e : PointerEvent) (reg : Registry) (c : Card Sf)
  (cls : list Closure) : Registry * Card Sf * list Closure * list js_error * nat :=
  match cls with
  | [] => (reg, c, [], [], 0%nat)
  | cl :: rest =>
      let o := listener t reg c cl e in
      let '(reg', c', rest', errs, n) := run_listeners t e (o_reg o) (o_card o) rest in
      (reg', c', o_closure o :: rest',
       match o_error o with Some err => err :: errs | None => errs end,
       ((if o_revealed o then 1 else 0) + n)%nat)
  end.

(** An event on the canvas of a card. *)
Definition dispatch (t : EventType) (e : PointerEvent) (reg : Registry) (c : Card Sf) :
  Registry * Card Sf * list js_error * nat :=
  let '(reg', c', cls', errs, n) := run_listeners t e reg c (card_closures c) in
  (reg', set_closures cls' c', errs, n).

(** [setupScratching(canvas, ctx, card)] (lines 162-166): a new closure
    with [totalArea = canvas.width * canvas.height]. *)
Definition setupScratching (c : Card Sf) : Card Sf :=
  set_closures (card_closures c ++
    [mkClosure false 0 (surf_width (card_canvas c) * surf_height (card_canvas c))]) c.

(** [showWinningEffect(card, prizeAmount, isWinningWord)] (lines
    259-288): for a positive amount, a celebration element is appended and
    its removal is scheduled after 1500 ms (the delay is returned). *)
Definition showWinningEffect (c : Card Sf) (prizeAmount : float) : Card Sf * option Z :=
  if js_lt 0 prizeAmount then
    (mkCard (card_lucky_word c) (card_display c) (card_dataset c) (card_scratched c) (card_rect c)
       (card_canvas c) (card_closures c) (S (card_celebrations c)) true, Some 1500%Z)
  else (c, None).

End Handlers.

(** ** Theorems *)

Section ScratchFacts.

Context {Sf : Type} `{!Surface2D Sf} `{!Surface2DLaws Sf}.

(** The erased area of a card's overlay, as [calculateScratchedArea]
    counts it. *)
Definition area (c : Card Sf) : Z := calculateScratchedArea (card_canvas c).

(** What a listener can do to the shared state and to a card: the registry
    only grows, the erased area never decreases, the [scratched] class is
    never removed, the dataset, the closures and the size of the canvas are
    left alone. *)
Record card_progress (reg : Registry) (c : Card Sf) (reg' : Registry) (c' : Card Sf) : Prop := {
  cp_reg : reg ⊆ reg';
  cp_area : (area c <= area c')%Z;
  cp_dataset : card_dataset c' = card_dataset c;
  cp_closures : card_closures c' = card_closures c;
  cp_dims : surf_dims (card_canvas c') = surf_dims (card_canvas c);
  cp_celebrations : card_celebrations c' = card_celebrations c;
  cp_scratched : card_scratched c = true -> card_scratched c' = true;
  (** a card becomes [scratched] only with its key in the registry *)
  cp_keyed : card_scratched c' = true -> card_scratched c = true \/ card_dataset c !! "cardId" ∈ reg';
  cp_word : card_lucky_word c' = card_lucky_word c;
  cp_display : card_display c' = card_display c
}.

Lemma card_progress_refl (reg : Registry) (c : Card Sf) : card_progress reg c reg c.
Proof. split; auto; lia. Qed.

Lemma card_progress_trans reg1 c1 reg2 c2 reg3 c3 :
  card_progress reg1 c1 reg2 c2 -> card_progress reg2 c2 reg3 c3 -> card_progress reg1 c1 reg3 c3.
Proof.
  intros [H1 H2 H3 H4 H5 H6 H7 H8 H9 H10] [G1 G2 G3 G4 G5 G6 G7 G8 G9 G10]. split; try congruence.
  - set_solver.
  - lia.
  - auto.
  - intros Hs. destruct (G8 Hs) as [Hs2 | Hin]; [destruct (H8 Hs2); [auto | right; set_solver] |].
    right. rewrite H3 in Hin. exact Hin.
Qed.

Lemma scratch_progress (reg : Registry) (c : Card Sf) (x y : float) :
  card_progress reg c reg (set_canvas (scratch x y (card_canvas c)) c).
Proof.
  split; auto; first [ reflexivity | apply calculateScratchedArea_erase_mono | apply surf_erase_dims ].
Qed.

Lemma revealPrize_progress (reg : Registry) (c : Card Sf) :
  let '(reg', c', _, _) := revealPrize reg c in card_progress reg c reg' c'.
Proof.
  unfold revealPrize. case_bool_decide; [apply card_progress_refl|].
  split; cbn; auto.
  - set_solver.
  - unfold area. cbn. rewrite calculateScratchedArea_clear. apply calculateScratchedArea_bounds.
  - apply surf_clear_dims.
  - intros _. right. set_solver.
Qed.

Lemma listener_progress (t : EventType) (reg : Registry) (c : Card Sf) (cl : Closure) (e : PointerEvent) :
  card_progress reg c (o_reg (listener t reg c cl e)) (o_card (listener t reg c cl e)).
Proof.
  destruct t; cbn [listener]; unfold startScratching, scratchMove, endScratching;
    repeat (case_bool_decide || case_match); cbn [o_reg o_card];
    try apply card_progress_refl; try apply scratch_progress.
  all: match goal with
       | H : revealPrize ?r ?c1 = _ |- _ =>
           pose proof (revealPrize_progress r c1) as Hr; rewrite H in Hr;
           eapply card_progress_trans; [apply scratch_progress | exact Hr]
       end.
Qed.

Lemma card_progress_cardId reg c reg' c' : card_progress reg c reg' c' -> cardId c' = cardId c.
Proof. intros H. unfold cardId. rewrite (cp_dataset _ _ _ _ H). reflexivity. Qed.

Lemma listener_reveal (t : EventType) (reg : Registry) (c : Card Sf) (cl : Closure) (e : PointerEvent) :
  o_revealed (listener t reg c cl e) = true ->
  (cardId c ∉ reg) /\ o_reg (listener t reg c cl e) = {[cardId c]} ∪ reg /\
  card_scratched (o_card (listener t reg c cl e)) = true /\
  o_error (listener t reg c cl e) = Some (ReferenceError "prizeAmount").
Proof.
  destruct t; cbn [listener]; unfold startScratching, scratchMove, endScratching;
    repeat (case_bool_decide || case_match); cbn [o_revealed]; try discriminate;
    match goal with
    | H : revealPrize ?r ?c1 = _ |- _ => unfold revealPrize in H; case_bool_decide;
        [injection H as <- <- <- <-; discriminate
        | injection H as <- <- <- <-; intros _; cbn; repeat split; assumption]
    end.
Qed.

Lemma listener_no_reveal (t : EventType) (reg : Registry) (c : Card Sf) (cl : Closure) (e : PointerEvent) :
  cardId c ∈ reg -> o_revealed (listener t reg c cl e) = false.
Proof.
  intros Hin. destruct (o_revealed _) eqn:E; [|reflexivity].
  apply listener_reveal in E as [E _]. contradiction.
Qed.

Lemma run_listeners_progress (t : EventType) (e : PointerEvent) (cls : list Closure) :
  forall reg c, let '(reg', c', cls', errs, n) := run_listeners t e reg c cls in
  card_progress reg c reg' c' /\ length cls' = length cls.
Proof.
  induction cls as [|cl cls IH]; intros reg c; cbn [run_listeners].
  { split; [apply card_progress_refl | reflexivity]. }
  pose proof (listener_progress t reg c cl e) as Hp.
  specialize (IH (o_reg (listener t reg c cl e)) (o_card (listener t reg c cl e))).
  destruct (run_listeners _ _ _ _ cls) as [[[[reg' c'] cls'] errs] n].
  destruct IH as [IH Hl]. split; [eapply card_progress_trans; eassumption | cbn; congruence].
Qed.

(** The dispatch of an event to a card makes progress in the sense of
    [card_progress], closures aside. *)
Lemma dispatch_progress (t : EventType) (e : PointerEvent) (reg : Registry) (c : Card Sf) :
  let '(reg', c', errs, n) := dispatch t e reg c in
  reg ⊆ reg' /\ (area c <= area c')%Z /\ cardId c' = cardId c /\
  surf_dims (card_canvas c') = surf_dims (card_canvas c) /\
  card_celebrations c' = card_celebrations c /\
  (card_scratched c = true -> card_scratched c' = true) /\
  (card_scratched c' = true -> card_scratched c = true \/ cardId c ∈ reg') /\
  length (card_closures c') = length (card_closures c) /\
  card_lucky_word c' = card_lucky_word c /\ card_display c' = card_display c /\
  card_dataset c' = card_dataset c.
Proof.
  unfold dispatch. pose proof (run_listeners_progress t e (card_closures c) reg c) as H.
  destruct (run_listeners _ _ _ _ _) as [[[[reg' c'] cls'] errs] n].
  destruct H as [[H1 H2 H3 H4 H5 H6 H7 H8 H9 H10] Hl]. unfold cardId, area in *.
  cbn. rewrite H3. repeat split; auto.
Qed.

(** The reveal facts of one dispatch. *)
Lemma dispatch_reveal_facts (t : EventType) (e : PointerEvent) (reg : Registry) (c : Card Sf) :
  let '(reg', c', errs, n) := dispatch t e reg c in
  (n <= 1)%nat /\
  (n = 1%nat -> (cardId c ∉ reg) /\ cardId c ∈ reg' /\ card_scratched c' = true /\
                ReferenceError "prizeAmount" ∈ errs) /\
  (cardId c ∈ reg -> n = 0%nat) /\
  card_celebrations c' = card_celebrations c /\
  length (card_closures c') = length (card_closures c).
Proof.
  unfold dispatch. enough (Hrun : forall cls reg c,
    let '(reg', c', cls', errs, n) := run_listeners t e reg c cls in
    (n <= 1)%nat /\
    (n = 1%nat -> (cardId c ∉ reg) /\ cardId c ∈ reg' /\ card_scratched c' = true /\
                  ReferenceError "prizeAmount" ∈ errs) /\
    (cardId c ∈ reg -> n = 0%nat)).
  { pose proof (Hrun (card_closures c) reg c) as H.
    pose proof (run_listeners_progress t e (card_closures c) reg c) as Hp.
    destruct (run_listeners t e reg c (card_closures c)) as [[[[reg' c'] cls'] errs] n].
    destruct H as (H1 & H2 & H3). destruct Hp as [[_ _ _ _ _ H7 _ _ _ _] H5].
    cbn. split; [exact H1|]. split; [|split; [exact H3 | split; [exact H7 | exact H5]]].
    intros Hn. destruct (H2 Hn) as (J1 & J2 & J3 & J4). repeat split; assumption. }
  induction cls as [|cl cls IH]; intros reg0 c0; cbn [run_listeners].
  { repeat split; try lia; discriminate. }
  set (o := listener t reg0 c0 cl e).
  pose proof (listener_progress t reg0 c0 cl e) as Hp. fold o in Hp.
  pose proof (card_progress_cardId _ _ _ _ Hp) as Hid.
  pose proof (run_listeners_progress t e cls (o_reg o) (o_card o)) as HI4.
  specialize (IH (o_reg o) (o_card o)).
  destruct (run_listeners t e (o_reg o) (o_card o) cls) as [[[[reg' c'] cls'] errs] n].
  rewrite Hid in IH. destruct IH as (I1 & I2 & I3). destruct HI4 as [I4 _].
  destruct (o_revealed o) eqn:Ero.
  - destruct (listener_reveal t reg0 c0 cl e Ero) as (Hnin & Hreg & Hsc & Herr).
    fold o in Hreg, Hsc, Herr. rewrite Herr.
    assert (Hin : cardId c0 ∈ o_reg o) by (rewrite Hreg; set_solver).
    rewrite (I3 Hin). destruct I4 as [Hsub _ _ _ _ _ Hs _ _ _].
    split; [lia|]. split.
    + intros _. split; [exact Hnin|]. split; [apply Hsub, Hin|].
      split; [apply Hs, Hsc | apply list_elem_of_here].
    + intros H; contradiction.
  - destruct Hp as [Hsub _ _ _ _ _ _ _ _ _]. cbn. split; [lia|]. split.
    + intros Hn. destruct (I2 ltac:(lia)) as (J1 & J2 & J3 & J4).
      split; [intros Hin; apply J1, Hsub, Hin|]. split; [exact J2|]. split; [exact J3|].
      destruct (o_error o); [apply list_elem_of_further |]; exact J4.
    + intros Hin. rewrite (I3 (Hsub _ Hin)). reflexivity.
Qed.

(** C3: One event on a card reveals it at most once, however many closures
    listen: a reveal needs the card's key outside [scratchedCards] and puts
    it in, and every reveal reports the ReferenceError of the
    [showWinningEffect] call, so no celebration is ever added. *)
Theorem dispatch_reveals_at_most_once (t : EventType) (e : PointerEvent) (reg : Registry) (c : Card Sf) :
  let '(reg', c', errs, n) := dispatch t e reg c in
  (n <= 1)%nat /\
  (n = 1%nat -> (cardId c ∉ reg) /\ cardId c ∈ reg' /\ card_scratched c' = true /\
                ReferenceError "prizeAmount" ∈ errs) /\
  (cardId c ∈ reg -> n = 0%nat) /\
  card_celebrations c' = card_celebrations c /\
  length (card_closures c') = length (card_closures c).
Proof. eapply dispatch_reveal_facts; eassumption. Qed.

(** A revealed card's overlay is fully erased ([clearRect]). *)
Definition revealed_full (c : Card Sf) : Prop :=
  card_scratched c = true ->
  area c = (surf_width (card_canvas c) * surf_height (card_canvas c))%Z.

Lemma revealed_full_mono (c c' : Card Sf) :
  surf_dims (card_canvas c') = surf_dims (card_canvas c) -> (area c <= area c')%Z ->
  card_scratched c' = card_scratched c -> revealed_full c -> revealed_full c'.
Proof.
  unfold revealed_full, surf_dims. intros Hd Ha Hs Hf Hs'. rewrite Hs in Hs'.
  specialize (Hf Hs'). injection Hd as Hw Hh. rewrite Hw, Hh.
  pose proof (calculateScratchedArea_bounds (card_canvas c')) as Hb. rewrite Hw, Hh in Hb.
  unfold area in *. lia.
Qed.

Lemma scratch_full (c : Card Sf) (x y : float) :
  revealed_full c -> revealed_full (set_canvas (scratch x y (card_canvas c)) c).
Proof.
  apply revealed_full_mono; [apply surf_erase_dims | | reflexivity].
  unfold area. cbn [card_canvas set_canvas]. unfold scratch. apply calculateScratchedArea_erase_mono.
Qed.

Lemma clear_full (c : Card Sf) (s : Sf) :
  revealed_full (set_scratched true (set_canvas (surf_clear_rect s) c)).
Proof.
  intros _. unfold area. cbn [card_canvas set_canvas set_scratched].
  rewrite calculateScratchedArea_clear. destruct (surf_clear_width s) as [-> ->]. reflexivity.
Qed.

Lemma listener_full (t : EventType) (reg : Registry) (c : Card Sf) (cl : Closure) (e : PointerEvent) :
  revealed_full c -> revealed_full (o_card (listener t reg c cl e)).
Proof.
  intros Hf. destruct t; cbn [listener]; unfold startScratching, scratchMove, endScratching;
    repeat (case_bool_decide || case_match); cbn [o_card]; try exact Hf; try (apply scratch_full, Hf).
  all: match goal with
       | H : revealPrize ?r ?c1 = _ |- _ => unfold revealPrize in H; case_bool_decide;
           injection H as <- <- <- <-; [apply scratch_full, Hf | apply clear_full]
       end.
Qed.

Lemma dispatch_full (t : EventType) (e : PointerEvent) (reg : Registry) (c : Card Sf) :
  revealed_full c -> let '(_, c', _, _) := dispatch t e reg c in revealed_full c'.
Proof.
  unfold dispatch. intros Hf.
  assert (H : forall cls reg c, revealed_full c ->
            let '(_, c', _, _, _) := run_listeners t e reg c cls in revealed_full c').
  { induction cls as [|cl cls IH]; intros reg0 c0 H0; cbn [run_listeners]; [exact H0|].
    specialize (IH (o_reg (listener t reg0 c0 cl e)) (o_card (listener t reg0 c0 cl e))
                  (listener_full t reg0 c0 cl e H0)).
    destruct (run_listeners _ _ _ _ cls) as [[[[reg' c'] cls'] errs] n]. exact IH. }
  specialize (H (card_closures c) reg c Hf).
  destruct (run_listeners _ _ _ _ _) as [[[[reg' c'] cls'] errs] n]. exact H.
Qed.

(** ** Pointer positions and the threshold *)

Lemma client_coord_mouse (v : float) (pick : float * float -> float) :
  client_coord (Some v) pick None =
  if js_truthy_number (Some v) then inl v
  else inr (TypeError "Cannot read properties of undefined (reading '0')").
Proof. unfold client_coord. destruct (js_truthy_number _); reflexivity. Qed.

Lemma js_truthy_number_some (v : float) :
  js_truthy_number (Some v) = negb (js_isnan v) && negb (js_num_eqb v 0).
Proof. reflexivity. Qed.

(** C17: For a mouse event (no [touches]), [getMousePos] returns the
    position relative to the canvas when [clientX] and [clientY] are
    numbers other than 0 and NaN; when either is 0 (the pointer on the left
    or top edge of the viewport) the [||] falls back to [e.touches[0]] of
    the mouse event, which is undefined, and throws a TypeError. *)
Theorem getMousePos_mouse (rect : Rect) (x y : float) :
  (js_isnan x = false -> js_isnan y = false -> js_num_eqb x 0 = false -> js_num_eqb y 0 = false ->
   getMousePos rect (mkEvent (Some x) (Some y) None) = inl ((x - rect_left rect)%float, (y - rect_top rect)%float)) /\
  (js_num_eqb x 0 = true \/ js_num_eqb y 0 = true ->
   getMousePos rect (mkEvent (Some x) (Some y) None) = inr (TypeError "Cannot read properties of undefined (reading '0')")).
Proof.
  unfold getMousePos. cbn [ev_clientX ev_clientY ev_touches]. rewrite !client_coord_mouse, !js_truthy_number_some.
  split.
  - intros -> -> -> ->. reflexivity.
  - intros [-> | ->]; [rewrite andb_false_r; reflexivity |].
    destruct (negb (js_isnan x) && negb (js_num_eqb x 0)); rewrite ?andb_false_r; reflexivity.
Qed.

Lemma run_listeners_touchmove_empty (reg : Registry) (c : Card Sf) (cls : list Closure) :
  run_listeners TouchMove (mkEvent None None (Some [])) reg c cls =
  (reg, c, cls, map (fun _ => TypeError "Cannot read properties of undefined (reading 'clientX')")
                    (filter (fun cl => isScratching cl = true) cls), 0%nat).
Proof.
  induction cls as [|cl cls IH]; [reflexivity|].
  cbn [run_listeners listener]. unfold scratchMove.
  destruct (isScratching cl) eqn:E;
    cbn [negb o_reg o_card o_closure o_error o_revealed getMousePos client_coord first_touch
         ev_clientX ev_clientY ev_touches];
    rewrite IH, filter_cons, E; reflexivity.
Qed.

(** C16: A [touchmove] that carries no touch point is not ignored, as the
    spec requires of an event without a coordinate: every closure of the
    card that is scratching throws a TypeError into the event loop.  Apart
    from these exceptions the event changes nothing: the set, the card, its
    canvas and its closures stay as they were, and nothing is revealed. *)
Theorem dispatch_touchmove_no_touches (reg : Registry) (c : Card Sf) :
  dispatch TouchMove (mkEvent None None (Some [])) reg c =
  (reg, c, map (fun _ => TypeError "Cannot read properties of undefined (reading 'clientX')")
               (filter (fun cl => isScratching cl = true) (card_closures c)), 0%nat).
Proof. unfold dispatch. rewrite run_listeners_touchmove_empty. destruct c; reflexivity. Qed.

Lemma threshold_reached_iff (a t : Z) :
  (0 < t)%Z -> threshold_reached a t = true <-> (t <= 2 * a)%Z.
Proof.
  intros Ht. unfold threshold_reached. rewrite (proj2 (Z.eqb_neq t 0)) by lia.
  rewrite Qle_bool_iff. destruct t as [|tp|tn]; try lia.
  unfold Qle, Qdiv, Qmult, Qinv, inject_Z. cbn. lia.
Qed.

(** C9: A move of a scratching closure, with a position, on a canvas of
    positive size reveals the card exactly when its key is not in
    [scratchedCards] and, after the disc under the pointer is erased, at
    least half of the canvas's pixels are transparent: the double quotient
    [scratchedArea / totalArea >= 0.5] is decided exactly. *)
Theorem scratchMove_reveals_iff (reg : Registry) (c : Card Sf) (cl : Closure) (e : PointerEvent) (x y : float) :
  isScratching cl = true -> getMousePos (card_rect c) e = inl (x, y) -> (0 < totalArea cl)%Z ->
  o_revealed (scratchMove reg c cl e) = true <->
  cardId c ∉ reg /\ (totalArea cl <= 2 * calculateScratchedArea (scratch x y (card_canvas c)))%Z.
Proof.
  intros Hs Hp Ht. unfold scratchMove. rewrite Hs, Hp. cbn [negb card_canvas set_canvas].
  rewrite <- (threshold_reached_iff _ _ Ht).
  destruct (threshold_reached _ _); [| cbn; split; [discriminate | intros [_ H]; discriminate]].
  unfold revealPrize. cbn [card_canvas set_canvas].
  case_bool_decide as Hin; cbn; split.
  - discriminate.
  - intros [H _]. contradiction.
  - intros _. split; [exact Hin | reflexivity].
  - reflexivity.
Qed.

(** ** Registered cards *)

Lemma listener_blocked (t : EventType) (reg : Registry) (c : Card Sf) (cl : Closure) (e : PointerEvent) :
  cardId c ∈ reg -> isScratching cl = false ->
  o_reg (listener t reg c cl e) = reg /\ o_card (listener t reg c cl e) = c /\
  isScratching (o_closure (listener t reg c cl e)) = false /\
  o_error (listener t reg c cl e) = None /\ o_revealed (listener t reg c cl e) = false.
Proof.
  intros Hin Hidle. destruct t; cbn [listener]; unfold startScratching, scratchMove, endScratching;
    try (case_bool_decide; [|contradiction]); rewrite ?Hidle; cbn; auto 6.
Qed.

Lemma run_listeners_blocked (t : EventType) (e : PointerEvent) (reg : Registry) (c : Card Sf) (cls : list Closure) :
  cardId c ∈ reg -> Forall (fun cl => isScratching cl = false) cls ->
  let '(reg', c', cls', errs, n) := run_listeners t e reg c cls in
  reg' = reg /\ c' = c /\ Forall (fun cl => isScratching cl = false) cls' /\ errs = [] /\ n = 0%nat.
Proof.
  intros Hin. induction 1 as [|cl cls Hidle _ IH]; [cbn; auto|].
  cbn [run_listeners]. destruct (listener_blocked t reg c cl e Hin Hidle) as (-> & -> & H3 & -> & ->).
  destruct (run_listeners t e reg c cls) as [[[[reg' c'] cls'] errs] n].
  destruct IH as (-> & -> & H4 & -> & ->). repeat split; auto.
Qed.

(** C13: A card whose key is in [scratchedCards] and whose closures are all
    idle (no drag in progress) is inert: every pointer event leaves the
    set, its canvas and its [scratched] class as they were, keeps its
    closures idle, reports no exception and reveals nothing, since
    [startScratching] returns at once and [scratchMove] needs
    [isScratching]. *)
Theorem dispatch_registered_idle (t : EventType) (e : PointerEvent) (reg : Registry) (c : Card Sf) :
  cardId c ∈ reg -> Forall (fun cl => isScratching cl = false) (card_closures c) ->
  let '(reg', c', errs, n) := dispatch t e reg c in
  reg' = reg /\ card_canvas c' = card_canvas c /\ card_scratched c' = card_scratched c /\
  cardId c' = cardId c /\ Forall (fun cl => isScratching cl = false) (card_closures c') /\
  errs = [] /\ n = 0%nat.
Proof.
  intros Hin Hidle. unfold dispatch. pose proof (run_listeners_blocked t e reg c _ Hin Hidle) as H.
  destruct (run_listeners t e reg c (card_closures c)) as [[[[reg' c'] cls'] errs] n].
  destruct H as (-> & -> & H & -> & ->). repeat split; auto.
Qed.

End ScratchFacts.

End Scratch.
