(* ===== verification/Game.v ===== *)
(** * Game: the page as a state machine

    Models the [ScratchCard] object over all cards of the document: the
    constructor and [init] (src/script.js, lines 2-29), [setupCards]
    (lines 55-105), [setupCanvas] (lines 133-160), [resetGame] (lines
    290-311) and the bootstrap on [DOMContentLoaded] (lines 319-321).
    The state ([Page]) holds the cards, the shared set [scratchedCards], the
    stream of [Math.random()] draws, the exceptions the event loop reported
    and the pending [setTimeout] callbacks.  [step] is the event loop: a
    pointer event on the canvas of card [i], labelled with the number of
    reveals it caused, or a timer firing.  [resetGame] is a function but not
    a step: no listener calls it (the reset button of line 4 is never wired
    up).  [run] is a finite trace of steps from the state built by the
    constructor. *)

From Stdlib Require Import Floats QArith Qround ZArith Lia Lqa.
From stdpp Require Import base list gmap strings.
From S2P Require Import Prelude Symbols Prizes Surface Scratch.

Set Warnings "-inexact-float".

Module Game.

Import Scratch.

Local Open Scope string_scope.

Record Page (Sf : Type) := mkPage {
  page_cards : list (Card Sf);
  scratchedCards : Registry;
  page_rng : Rng;
  page_errors : list js_error;
  page_timers : list nat
}.

Arguments mkPage {Sf}.
Arguments page_cards {Sf}. Arguments scratchedCards {Sf}. Arguments page_rng {Sf}.
Arguments page_errors {Sf}. Arguments page_timers {Sf}.

(** What the event loop observed in one step. *)
Inductive Label :=
| LEvent (i : nat) (reveals : nat)
| LTimer.

Definition set_lucky_word {Sf} (w : string) (c : Card Sf) : Card Sf :=
  mkCard w (card_display c) (card_dataset c) (card_scratched c) (card_rect c)
    (card_canvas c) (card_closures c) (card_celebrations c) (card_position_relative c).

Definition set_prize {Sf} (d : Prizes.PrizeDisplay) (ds : gmap string string) (c : Card Sf) : Card Sf :=
  mkCard (card_lucky_word c) d ds (card_scratched c) (card_rect c)
    (card_canvas c) (card_closures c) (card_celebrations c) (card_position_relative c).

(** [prizeContent.classList.remove('no-prize')] (line 303). *)
Definition remove_no_prize {Sf} (c : Card Sf) : Card Sf :=
  let d := card_display c in
  set_prize (Prizes.mkDisplay (Prizes.amount_text d) (Prizes.type_text d) false) (card_dataset c) c.

Section Page.

Context {Sf : Type} `{!Surface2D Sf}.

(** [setupCanvas(canvas, card)] (lines 133-160). *)
Definition setupCanvas (c : Card Sf) : Card Sf :=
  setupScratching (set_canvas (setupCanvas_draw (rect_width (card_rect c)) (rect_height (card_rect c))
                                 (card_canvas c)) c).

(** [setupCards()] (lines 55-105): per card, in document order, the prize,
    its text and dataset, then [setupCanvas]. *)
Fixpoint setupCards (cards : list (Card Sf)) (g : Rng) : list (Card Sf) * Rng :=
  match cards with
  | [] => ([], g)
  | c :: cs =>
      let '(d', ds', g1) := Prizes.setupCardPrize (card_lucky_word c) (card_display c) (card_dataset c) g in
      let c1 := setupCanvas (set_prize d' ds' c) in
      let '(cs', g2) := setupCards cs g1 in
      (c1 :: cs', g2)
  end.

(** [new ScratchCard()] on [DOMContentLoaded] (lines 2-29, 319-321): the
    cards of [querySelectorAll('.scratch-card')], an empty
    [scratchedCards], then [init()]: [shuffleWinningWords()] and
    [setupCards()]. *)
Definition scratchCard_new (doc : list (Card Sf)) (g : Rng) : Page Sf :=
  let '(cs1, g1) := Symbols.shuffleWinningWords set_lucky_word doc g in
  let '(cs2, g2) := setupCards cs1 g1 in
  mkPage cs2 ∅ g2 [] [].

(** A pointer event of type [t] on the canvas of card [i]: the number of
    reveals it caused. *)
Definition page_event (i : nat) (t : EventType) (e : PointerEvent) (p : Page Sf) : Page Sf * nat :=
  match page_cards p !! i with
  | None => (p, 0%nat)
  | Some c =>
      let '(reg', c', errs, n) := dispatch t e (scratchedCards p) c in
      (mkPage (<[i := c']> (page_cards p)) reg' (page_rng p) (page_errors p ++ errs)%list (page_timers p), n)
  end.

(** The callback of [setTimeout] (lines 283-285): the celebration of
    card [i] is removed. *)
Definition fire_timer (p : Page Sf) : option (Page Sf) :=
  match page_timers p with
  | [] => None
  | i :: rest =>
      let cards' := alter (fun c => mkCard (card_lucky_word c) (card_display c) (card_dataset c)
                                   (card_scratched c) (card_rect c) (card_canvas c) (card_closures c)
                                   (pred (card_celebrations c)) (card_position_relative c)) i (page_cards p) in
      Some (mkPage cards' (scratchedCards p) (page_rng p) (page_errors p) rest)
  end.

(** [resetGame()] (lines 290-311), a function no listener calls. *)
Definition resetGame (p : Page Sf) : Page Sf :=
  let cs1 := map (fun c => remove_no_prize (setupCanvas (set_scratched false c))) (page_cards p) in
  let '(cs2, g) := setupCards cs1 (page_rng p) in
  mkPage cs2 ∅ g (page_errors p) (page_timers p).

(** The event loop. *)
Inductive step : Page Sf -> Label -> Page Sf -> Prop :=
| step_event i t e p p' n :
    page_event i t e p = (p', n) -> step p (LEvent i n) p'
| step_timer p p' :
    fire_timer p = Some p' -> step p LTimer p'.

(** A finite trace of steps, oldest label first. *)
Inductive run : Page Sf -> list Label -> Page Sf -> Prop :=
| run_nil p : run p [] p
| run_snoc p ls p' l p'' : run p ls p' -> step p' l p'' -> run p (ls ++ [l]) p''.

End Page.

(** ** Observations of a trace *)

(** The reveals of the cards of key [k] ([keys] lists the cards' keys). *)
Fixpoint key_reveals (keys : list (option string)) (k : option string) (ls : list Label) : nat :=
  match ls with
  | [] => 0
  | LEvent i n :: ls' => ((if bool_decide (keys !! i = Some k) then n else 0) + key_reveals keys k ls')%nat
  | LTimer :: ls' => key_reveals keys k ls'
  end.

(** All reveals of the trace. *)
Fixpoint total_reveals (ls : list Label) : nat :=
  match ls with
  | [] => 0
  | LEvent _ n :: ls' => (n + total_reveals ls')%nat
  | LTimer :: ls' => total_reveals ls'
  end.

(** The reveals of card [i]. *)
Fixpoint card_reveals (i : nat) (ls : list Label) : nat :=
  match ls with
  | [] => 0
  | LEvent j n :: ls' => ((if bool_decide (j = i) then n else 0) + card_reveals i ls')%nat
  | LTimer :: ls' => card_reveals i ls'
  end.

(** The state of a card's overlay in the spec (section 4.6). *)
Inductive OverlayState := HIDDEN | SCRATCHING | REVEALED.

Inductive overlay_spec_step : OverlayState -> OverlayState -> Prop :=
| spec_first_erase : overlay_spec_step HIDDEN SCRATCHING
| spec_reveal : overlay_spec_step SCRATCHING REVEALED.

(** A document the page starts from: no listener, no celebration, no card
    scratched yet. *)
Definition fresh_card {Sf} (c : Card Sf) : Prop :=
  card_closures c = [] /\ card_celebrations c = 0%nat /\ card_scratched c = false.

Section PageFacts.

Context {Sf : Type} `{!Surface2D Sf} `{!Surface2DLaws Sf}.

(** The abstraction of a card's concrete state to the spec's overlay
    state. *)
Definition overlay_state (c : Card Sf) : OverlayState :=
  if card_scratched c then REVEALED else if (0 <? area c)%Z then SCRATCHING else HIDDEN.

(** What [setupCanvas] does to a card, read through the model. *)
Definition setup_rel (c c' : Card Sf) : Prop :=
  cardId c' = cardId c /\ card_scratched c' = card_scratched c /\
  card_celebrations c' = card_celebrations c /\ card_lucky_word c' = card_lucky_word c /\
  card_closures c' = (card_closures c ++
    [mkClosure false 0 (surf_width (card_canvas c') * surf_height (card_canvas c'))])%list /\
  area c' = 0%Z.

(** The page invariant: the cards keep their keys, no celebration is ever
    added and no timer pending, a revealed card's overlay is fully erased
    and its key is in [scratchedCards]. *)
Definition page_inv (keys : list (option string)) (p : Page Sf) : Prop :=
  length (page_cards p) = length keys /\ page_timers p = [] /\
  forall i c, page_cards p !! i = Some c ->
    keys !! i = Some (cardId c) /\ card_celebrations c = 0%nat /\ revealed_full c /\
    (card_scratched c = true -> cardId c ∈ scratchedCards p).

(** What a step may do to one card: the erased area only grows, the
    [scratched] class is never removed, the symbol, the prize text and the
    dataset are never touched. *)
Definition card_mono (c c' : Card Sf) : Prop :=
  (area c <= area c')%Z /\ (card_scratched c = true -> card_scratched c' = true) /\
  card_lucky_word c' = card_lucky_word c /\ card_display c' = card_display c /\
  card_dataset c' = card_dataset c.

(** A label of an event that revealed something names a card of the
    page. *)
Definition label_in_range (keys : list (option string)) (l : Label) : Prop :=
  match l with LEvent i n => n = 0%nat \/ is_Some (keys !! i) | LTimer => True end.

(** ** Theorems *)

Lemma storePrize_cardId (pz : Prizes.PrizeObj) (b : bool) (ds : gmap string string) :
  Prizes.storePrize pz b ds !! "cardId" = ds !! "cardId".
Proof. unfold Prizes.storePrize. rewrite !lookup_insert_ne; done. Qed.

Lemma setupCardPrize_cardId (w : string) (d : Prizes.PrizeDisplay) (ds : gmap string string) (g : Rng) :
  let '(_, ds', _) := Prizes.setupCardPrize w d ds g in ds' !! "cardId" = ds !! "cardId".
Proof.
  unfold Prizes.setupCardPrize. destruct (Prizes.decidePrize _ _) as [pz g1].
  destruct (Prizes.showPrize pz d g1) as [d' g2]. apply storePrize_cardId.
Qed.

Lemma setupCanvas_rel (c : Card Sf) : setup_rel c (setupCanvas c).
Proof.
  unfold setupCanvas, setupScratching, setup_rel, area. cbn.
  pose proof (setupCanvas_draw_area (rect_width (card_rect c)) (rect_height (card_rect c)) (card_canvas c))
    as H0.
  repeat split; auto.
Qed.

Lemma setupCards_rel (cs : list (Card Sf)) (g : Rng) :
  Forall2 setup_rel cs (fst (setupCards cs g)).
Proof.
  revert g. induction cs as [|c cs IH]; intros g; cbn [setupCards]; [constructor|].
  pose proof (setupCardPrize_cardId (card_lucky_word c) (card_display c) (card_dataset c) g) as Hid.
  destruct (Prizes.setupCardPrize _ _ _ g) as [[d' ds'] g1].
  specialize (IH g1). destruct (setupCards cs g1) as [cs' g2]. cbn [fst] in *.
  constructor; [|exact IH].
  destruct (setupCanvas_rel (set_prize d' ds' c)) as (H1 & H2 & H3 & H6 & H4 & H5).
  split; [rewrite H1; exact Hid | repeat split; auto].
Qed.

Lemma shuffle_rel (cs : list (Card Sf)) (g : Rng) :
  Forall2 (fun c c' => exists w, c' = set_lucky_word w c) cs
    (fst (Symbols.shuffleWinningWords set_lucky_word cs g)).
Proof.
  revert g. induction cs as [|c cs IH]; intros g; cbn [Symbols.shuffleWinningWords]; [constructor|].
  destruct (Symbols.selectWord g) as [w g1]. specialize (IH g1).
  destruct (Symbols.shuffleWinningWords _ cs g1) as [cs' g2]. constructor; [eauto | exact IH].
Qed.

Lemma shuffle_words (cs : list (Card Sf)) (g : Rng) :
  rng_ok g ->
  Forall2 (fun c c' => exists w, c' = set_lucky_word w c /\
             (w ∈ Symbols.normalWords \/ w ∈ Symbols.winningWords_local)) cs
    (fst (Symbols.shuffleWinningWords set_lucky_word cs g)) /\
  draws (snd (Symbols.shuffleWinningWords set_lucky_word cs g)) = draws g.
Proof.
  revert g. induction cs as [|c cs IH]; intros g Hg; cbn [Symbols.shuffleWinningWords]; [split; [constructor | reflexivity]|].
  destruct (Symbols.selectWord_pool g Hg) as (w & Hw & _ & Hin).
  assert (Hd : draws (snd (Symbols.selectWord g)) = draws g) by (rewrite Symbols.selectWord_spec; reflexivity).
  destruct (Symbols.selectWord g) as [w0 g1]. cbn [fst snd] in Hw, Hd. subst w0.
  destruct (IH g1) as [IH1 IH2]; [intros n; rewrite Hd; apply Hg |].
  destruct (Symbols.shuffleWinningWords _ cs g1) as [cs' g2]. cbn [fst snd] in *.
  split; [constructor; [exists w; split; [reflexivity | destruct (js_lt _ _); auto] | exact IH1] | congruence].
Qed.

Lemma setupCards_prizes (cs : list (Card Sf)) (g : Rng) :
  rng_ok g ->
  Forall2 (fun c c' =>
    card_lucky_word c' = card_lucky_word c /\
    card_dataset c' !! "isWinningWord" = Some (Prizes.bool_string (Symbols.isWinningWord (card_lucky_word c))) /\
    (card_dataset c' !! "prizeAmount" = Some "0" <-> Symbols.isWinningWord (card_lucky_word c) = false) /\
    (card_dataset c' !! "prizeType" = Some "谢谢参与" <-> Symbols.isWinningWord (card_lucky_word c) = false) /\
    Prizes.no_prize (card_display c') =
      negb (Symbols.isWinningWord (card_lucky_word c)) || Prizes.no_prize (card_display c))
    cs (fst (setupCards cs g)).
Proof.
  revert g. induction cs as [|c cs IH]; intros g Hg; cbn [setupCards]; [constructor|].
  pose proof (Prizes.setupCardPrize_facts (card_lucky_word c) (card_display c) (card_dataset c) g Hg) as Hf.
  destruct (Prizes.setupCardPrize _ _ _ g) as [[d' ds'] g1].
  destruct Hf as (F1 & F2 & F3 & F4 & F5).
  specialize (IH g1 ltac:(intros n; rewrite F5; apply Hg)).
  destruct (setupCards cs g1) as [cs' g2]. cbn [fst] in *. constructor; [| exact IH].
  unfold setupCanvas, setupScratching, set_closures, set_canvas, set_prize. cbn. auto 6.
Qed.

(** The page the constructor builds. *)
Lemma scratchCard_new_cards (doc : list (Card Sf)) (g : Rng) :
  Forall fresh_card doc ->
  scratchedCards (scratchCard_new doc g) = ∅ /\ page_errors (scratchCard_new doc g) = [] /\
  Forall2 (fun c0 c => cardId c = cardId c0 /\ card_scratched c = false /\ area c = 0%Z /\
             overlay_state c = HIDDEN /\ card_celebrations c = 0%nat /\
             card_closures c = [mkClosure false 0 (surf_width (card_canvas c) * surf_height (card_canvas c))])
    doc (page_cards (scratchCard_new doc g)).
Proof.
  intros Hfresh. unfold scratchCard_new.
  pose proof (shuffle_rel doc g) as Hs.
  destruct (Symbols.shuffleWinningWords set_lucky_word doc g) as [cs1 g1]. cbn [fst] in Hs.
  pose proof (setupCards_rel cs1 g1) as Hc.
  destruct (setupCards cs1 g1) as [cs2 g2]. cbn [fst] in Hc. cbn.
  split; [reflexivity|]. split; [reflexivity|].
  revert cs2 Hc. induction Hs as [|c0 c1 doc cs1 [w ->] Hs IH]; intros cs2 Hc;
    inversion Hc as [|? c2 ? cs2' (H1 & H2 & H3 & H6 & H4 & H5) Hc']; subst; constructor.
  - inversion Hfresh as [|? ? (F1 & F2 & F3) _]; subst.
    unfold overlay_state. cbn in H2, H3, H4. rewrite H1, H2, H3, H5, F1, F2, F3 in *.
    repeat split; auto; rewrite H4; reflexivity.
  - apply IH; [inversion Hfresh; assumption | exact Hc'].
Qed.

(** C15: The page the constructor builds on [DOMContentLoaded] from a fresh
    document has an empty [scratchedCards], no reported error, and for
    every card, in order: the same key, an overlay in the HIDDEN state with
    no transparent pixel, and exactly one closure, not scratching, whose
    [totalArea] is the size of the card's canvas. *)
Theorem scratchCard_new_spec (doc : list (Card Sf)) (g : Rng) :
  Forall fresh_card doc ->
  scratchedCards (scratchCard_new doc g) = ∅ /\ page_errors (scratchCard_new doc g) = [] /\
  Forall2 (fun c0 c => cardId c = cardId c0 /\ card_scratched c = false /\ area c = 0%Z /\
             overlay_state c = HIDDEN /\ card_celebrations c = 0%nat /\
             card_closures c = [mkClosure false 0 (surf_width (card_canvas c) * surf_height (card_canvas c))])
    doc (page_cards (scratchCard_new doc g)).
Proof. eapply scratchCard_new_cards; eassumption. Qed.

(** C14: Every card of the page the constructor builds on a fresh document
    carries the spec's prize invariant in its DOM: its symbol is a word of
    one of the two pools; its [data-is-winning-word] is the string of
    whether that symbol wins; and its [data-prize-amount] is "0", its
    [data-prize-type] is 谢谢参与 and it has the [no-prize] class, each
    exactly when the symbol does not win. *)
Theorem scratchCard_new_prizes (doc : list (Card Sf)) (g : Rng) :
  rng_ok g -> Forall (fun c => Prizes.no_prize (card_display c) = false) doc ->
  Forall (fun c =>
    (card_lucky_word c ∈ Symbols.normalWords \/ card_lucky_word c ∈ Symbols.winningWords_local) /\
    card_dataset c !! "isWinningWord" = Some (Prizes.bool_string (Symbols.isWinningWord (card_lucky_word c))) /\
    (card_dataset c !! "prizeAmount" = Some "0" <-> Symbols.isWinningWord (card_lucky_word c) = false) /\
    (card_dataset c !! "prizeType" = Some "谢谢参与" <-> Symbols.isWinningWord (card_lucky_word c) = false) /\
    (Prizes.no_prize (card_display c) = true <-> Symbols.isWinningWord (card_lucky_word c) = false))
    (page_cards (scratchCard_new doc g)).
Proof.
  intros Hg Hfresh. unfold scratchCard_new.
  destruct (shuffle_words doc g Hg) as [Hs Hd].
  destruct (Symbols.shuffleWinningWords set_lucky_word doc g) as [cs1 g1]. cbn [fst snd] in Hs, Hd.
  pose proof (setupCards_prizes cs1 g1 ltac:(intros n; rewrite Hd; apply Hg)) as Hc.
  destruct (setupCards cs1 g1) as [cs2 g2]. cbn [fst] in Hc. cbn [page_cards].
  apply Forall_forall. intros c Hin. destruct (list_elem_of_lookup_1 _ _ Hin) as [i Hi].
  destruct (Forall2_lookup_r _ _ _ _ _ Hc Hi) as (c1 & Hc1 & E1 & E2 & E3 & E4 & E5).
  destruct (Forall2_lookup_r _ _ _ _ _ Hs Hc1) as (c0 & Hc0 & w & -> & Hw).
  pose proof (Forall_lookup_1 _ _ _ _ Hfresh Hc0) as Hf0. cbn [card_lucky_word card_display set_lucky_word] in *.
  rewrite E1. split; [exact Hw|]. split; [exact E2|]. split; [exact E3|]. split; [exact E4|].
  rewrite E5, Hf0, orb_false_r. destruct (Symbols.isWinningWord w); split; auto; discriminate.
Qed.

Lemma init_inv (doc : list (Card Sf)) (g : Rng) :
  Forall fresh_card doc -> page_inv (cardId <$> doc) (scratchCard_new doc g).
Proof.
  intros Hf. destruct (scratchCard_new_cards doc g Hf) as (Hreg & _ & H2).
  split; [rewrite length_fmap; symmetry; eapply Forall2_length; exact H2 |].
  split; [unfold scratchCard_new; repeat case_match; reflexivity |].
  intros i c Hc. destruct (Forall2_lookup_r _ _ _ _ _ H2 Hc) as (c0 & Hc0 & E1 & E2 & _ & _ & E5 & _).
  rewrite list_lookup_fmap, Hc0, E1. split; [reflexivity|]. split; [exact E5|].
  split; [intros Hs; congruence | intros Hs; congruence].
Qed.

Lemma key_reveals_snoc (keys : list (option string)) (k : option string) (ls : list Label) (l : Label) :
  key_reveals keys k (ls ++ [l]) = (key_reveals keys k ls + key_reveals keys k [l])%nat.
Proof. induction ls as [|[i n|] ls IH]; simpl; [reflexivity | rewrite IH, Nat.add_assoc; reflexivity | exact IH]. Qed.

Lemma card_reveals_snoc (i : nat) (ls : list Label) (l : Label) :
  card_reveals i (ls ++ [l]) = (card_reveals i ls + card_reveals i [l])%nat.
Proof. induction ls as [|[j n|] ls IH]; simpl; [reflexivity | rewrite IH, Nat.add_assoc; reflexivity | exact IH]. Qed.

Lemma total_reveals_snoc (ls : list Label) (l : Label) :
  total_reveals (ls ++ [l]) = (total_reveals ls + total_reveals [l])%nat.
Proof. induction ls as [|[j n|] ls IH]; simpl; [reflexivity | rewrite IH, Nat.add_assoc; reflexivity | exact IH]. Qed.

(** One step preserves the invariant, grows the registry, and an event
    reveals at most one card, whose key was not yet in the registry and is
    now. *)
Lemma step_inv (keys : list (option string)) (p : Page Sf) (l : Label) (p' : Page Sf) :
  page_inv keys p -> step p l p' ->
  page_inv keys p' /\ scratchedCards p ⊆ scratchedCards p' /\ label_in_range keys l /\
  match l with
  | LEvent i n => (n <= 1)%nat /\
      forall k, keys !! i = Some k ->
        (k ∈ scratchedCards p -> n = 0%nat) /\ (n = 1%nat -> k ∈ scratchedCards p')
  | LTimer => False
  end.
Proof.
  intros (Hlen & Htm & Hinv) Hstep. destruct Hstep as [i t e p p' n Hev | p p' Hfire].
  2: { unfold fire_timer in Hfire. rewrite Htm in Hfire. discriminate. }
  unfold page_event in Hev. destruct (page_cards p !! i) as [c|] eqn:Hc.
  2: { injection Hev as <- <-. split; [unfold page_inv; auto |]. split; [set_solver|].
       split; [left; reflexivity|]. split; [lia|]. intros k _. split; [auto | lia]. }
  pose proof (dispatch_reveal_facts t e (scratchedCards p) c) as Hd.
  pose proof (dispatch_progress t e (scratchedCards p) c) as Hp.
  pose proof (dispatch_full t e (scratchedCards p) c) as Hfull.
  destruct (dispatch t e (scratchedCards p) c) as [[[reg' c'] errs] n'].
  injection Hev as <- <-. unfold page_inv. cbn [page_cards scratchedCards page_timers].
  destruct Hd as (D1 & D2 & D3 & _ & _). destruct Hp as (P1 & _ & P3 & _ & P5 & _ & P7 & _).
  destruct (Hinv i c Hc) as (K1 & K2 & K3 & K4).
  split; [split; [rewrite length_insert; exact Hlen | split; [exact Htm |]] |].
  - intros j cj Hj. destruct (decide (i = j)) as [<- | Hne].
    + rewrite list_lookup_insert_eq in Hj by (eapply lookup_lt_Some; exact Hc).
      injection Hj as <-. rewrite P3. split; [exact K1|]. split; [rewrite P5; exact K2|].
      split; [exact (Hfull K3)|]. intros Hs. destruct (P7 Hs) as [Hs0 | Hin]; [apply P1, K4, Hs0 | exact Hin].
    + rewrite list_lookup_insert_ne in Hj by exact Hne.
      destruct (Hinv j cj Hj) as (J1 & J2 & J3 & J4). repeat split; auto.
  - split; [exact P1|]. split; [right; rewrite K1; eauto|]. split; [exact D1|].
    intros k Hk. rewrite K1 in Hk. injection Hk as <-.
    split; [exact D3 | intros Hn; apply D2, Hn].
Qed.

Lemma run_inv (keys : list (option string)) (p0 : Page Sf) (ls : list Label) (p : Page Sf) :
  run p0 ls p -> page_inv keys p0 ->
  page_inv keys p /\ Forall (label_in_range keys) ls /\
  forall k, (key_reveals keys k ls <= 1)%nat /\ (key_reveals keys k ls = 1%nat -> k ∈ scratchedCards p).
Proof.
  induction 1 as [p | p ls p' l p'' Hrun IH Hstep]; intros Hinv.
  - split; [exact Hinv|]. split; [constructor|]. intros k. cbn. split; [lia | discriminate].
  - destruct (IH Hinv) as (I1 & I2 & I3).
    destruct (step_inv keys p' l p'' I1 Hstep) as (S1 & S2 & S3 & S4).
    split; [exact S1|]. split; [apply Forall_app; split; [exact I2 | repeat constructor; exact S3] |].
    intros k. rewrite key_reveals_snoc. destruct l as [i n|]; [|contradiction].
    destruct S4 as (N1 & N2). cbn [key_reveals]. rewrite Nat.add_0_r.
    destruct (I3 k) as (R1 & R2). case_bool_decide as Hk.
    + destruct (N2 k Hk) as (M1 & M2).
      destruct (decide (key_reveals keys k ls = 1%nat)) as [E|E].
      * rewrite E, (M1 (R2 E)). split; [lia | intros _; apply S2, R2, E].
      * assert (key_reveals keys k ls = 0%nat) as -> by lia.
        split; [lia | intros Hn; apply M2; lia].
    + split; [lia | intros E; apply S2, R2; lia].
Qed.

Lemma card_le_key (keys : list (option string)) (i : nat) (k : option string) (ls : list Label) :
  keys !! i = Some k -> (card_reveals i ls <= key_reveals keys k ls)%nat.
Proof.
  intros Hk. induction ls as [|[j n|] ls IH]; cbn; [lia | | exact IH].
  case_bool_decide as Hj; [subst j; rewrite bool_decide_true by exact Hk; lia |].
  destruct (bool_decide (keys !! j = Some k)); lia.
Qed.

Lemma card_reveals_out (keys : list (option string)) (i : nat) (ls : list Label) :
  Forall (label_in_range keys) ls -> keys !! i = None -> card_reveals i ls = 0%nat.
Proof.
  intros Hls Hi. induction Hls as [|[j n|] ls Hl _ IH]; cbn; [reflexivity | | exact IH].
  rewrite IH. case_bool_decide as Hj; [subst j | reflexivity].
  destruct Hl as [-> | [x Hx]]; [reflexivity | congruence].
Qed.

Lemma total_as_key (keys : list (option string)) (ls : list Label) :
  Forall (label_in_range keys) ls -> Forall (fun k => k = None) keys ->
  total_reveals ls = key_reveals keys None ls.
Proof.
  intros Hls Hkeys. induction Hls as [|[j n|] ls Hl _ IH]; cbn; [reflexivity | | exact IH].
  rewrite IH. destruct Hl as [-> | [x Hx]]; [destruct (bool_decide _); reflexivity |].
  rewrite bool_decide_true; [reflexivity|]. rewrite Hx.
  rewrite (Forall_lookup_1 _ _ _ _ Hkeys Hx). reflexivity.
Qed.

(** C1: Along any run of the page from the state its constructor builds
    on a fresh document, each card is revealed at most once: whatever
    pointer events keep arriving, [revealPrize] passes its guard at most
    once per card. *)
Theorem card_revealed_at_most_once (doc : list (Card Sf)) (g : Rng) (ls : list Label) (p : Page Sf) :
  Forall fresh_card doc -> run (scratchCard_new doc g) ls p ->
  forall i, (card_reveals i ls <= 1)%nat.
Proof.
  intros Hf Hrun i.
  destruct (run_inv (cardId <$> doc) _ ls p Hrun (init_inv doc g Hf)) as (_ & Hls & Hk).
  destruct ((cardId <$> doc) !! i) as [k|] eqn:Ei.
  - etransitivity; [apply (card_le_key _ i k ls Ei) | apply Hk].
  - rewrite (card_reveals_out _ i ls Hls Ei). lia.
Qed.

(** C2: The registry is keyed by [card.dataset.cardId], which the program
    never sets: on a document whose cards have no [data-card-id] attribute
    every key is [undefined], and along any run at most one card of the
    whole page is ever revealed. *)
Theorem no_card_ids_single_reveal (doc : list (Card Sf)) (g : Rng) (ls : list Label) (p : Page Sf) :
  Forall fresh_card doc -> Forall (fun c => cardId c = None) doc ->
  run (scratchCard_new doc g) ls p -> (total_reveals ls <= 1)%nat.
Proof.
  intros Hf Hnone Hrun.
  destruct (run_inv (cardId <$> doc) _ ls p Hrun (init_inv doc g Hf)) as (_ & Hls & Hk).
  rewrite (total_as_key _ ls Hls); [apply Hk |].
  apply Forall_fmap. exact Hnone.
Qed.

(** C11: In every page reachable from a fresh document, no celebration
    element is ever attached and no removal timer is pending (the
    [showWinningEffect] call always throws), and a revealed card has its
    key in [scratchedCards] and its overlay fully erased: every pixel
    transparent, [erasedFraction] = 1. *)
Theorem reachable_page_facts (doc : list (Card Sf)) (g : Rng) (ls : list Label) (p : Page Sf) :
  Forall fresh_card doc -> run (scratchCard_new doc g) ls p ->
  page_timers p = [] /\
  forall i c, page_cards p !! i = Some c ->
    card_celebrations c = 0%nat /\
    (card_scratched c = true ->
     cardId c ∈ scratchedCards p /\ area c = (surf_width (card_canvas c) * surf_height (card_canvas c))%Z).
Proof.
  intros Hf Hrun.
  destruct (run_inv (cardId <$> doc) _ ls p Hrun (init_inv doc g Hf)) as ((_ & Ht & Hinv) & _).
  split; [exact Ht|]. intros i c Hc. destruct (Hinv i c Hc) as (_ & H2 & H3 & H4).
  split; [exact H2 | intros Hs; split; [apply H4, Hs | apply H3, Hs]].
Qed.

Lemma overlay_state_mono (c c' : Card Sf) :
  (card_scratched c = true -> card_scratched c' = true) -> (area c <= area c')%Z ->
  rtc overlay_spec_step (overlay_state c) (overlay_state c').
Proof.
  unfold overlay_state. intros Hs Ha.
  destruct (card_scratched c) eqn:E; [rewrite (Hs eq_refl); reflexivity|].
  destruct (card_scratched c');
    destruct (Z.ltb_spec 0 (area c)); destruct (Z.ltb_spec 0 (area c')); try lia;
    eauto using rtc_refl, rtc_once, rtc_l, overlay_spec_step.
Qed.

Lemma card_mono_refl (c : Card Sf) : card_mono c c.
Proof. repeat split; auto; lia. Qed.

Lemma card_mono_trans (c1 c2 c3 : Card Sf) : card_mono c1 c2 -> card_mono c2 c3 -> card_mono c1 c3.
Proof.
  intros (A1 & A2 & A3 & A4 & A5) (B1 & B2 & B3 & B4 & B5).
  repeat split; [lia | auto | congruence | congruence | congruence].
Qed.

Lemma fire_timer_card (c : Card Sf) :
  card_mono c (mkCard (card_lucky_word c) (card_display c) (card_dataset c) (card_scratched c)
                 (card_rect c) (card_canvas c) (card_closures c) (pred (card_celebrations c))
                 (card_position_relative c)).
Proof. unfold card_mono, area. cbn. repeat split; auto; lia. Qed.

Lemma step_card_mono (p : Page Sf) (l : Label) (p' : Page Sf) (i : nat) (c c' : Card Sf) :
  step p l p' -> page_cards p !! i = Some c -> page_cards p' !! i = Some c' -> card_mono c c'.
Proof.
  intros Hstep Hc Hc'. destruct Hstep as [j t e p p' n Hev | p p' Hfire].
  - unfold page_event in Hev. destruct (page_cards p !! j) as [cj|] eqn:Hj.
    2: { injection Hev as <- <-. rewrite Hc in Hc'. injection Hc' as <-. apply card_mono_refl. }
    pose proof (dispatch_progress t e (scratchedCards p) cj) as Hp.
    destruct (dispatch t e (scratchedCards p) cj) as [[[reg' cj'] errs] n'].
    injection Hev as <- <-. cbn [page_cards] in Hc'.
    destruct (decide (j = i)) as [<- | Hne].
    + rewrite list_lookup_insert_eq in Hc' by (eapply lookup_lt_Some; exact Hj).
      injection Hc' as <-. rewrite Hc in Hj. injection Hj as <-.
      destruct Hp as (_ & Ha & _ & _ & _ & Hs & _ & _ & Hw & Hd & Hds). repeat split; assumption.
    + rewrite list_lookup_insert_ne in Hc' by exact Hne. rewrite Hc in Hc'. injection Hc' as <-.
      apply card_mono_refl.
  - unfold fire_timer in Hfire. destruct (page_timers p) as [|j rest]; [discriminate|].
    injection Hfire as <-. cbn [page_cards] in Hc'. rewrite list_lookup_alter in Hc'.
    destruct (decide (j = i)) as [<- | Hne]; rewrite Hc in Hc'; cbn in Hc'; injection Hc' as <-;
      [apply fire_timer_card | apply card_mono_refl].
Qed.

Lemma step_length (p : Page Sf) (l : Label) (p' : Page Sf) :
  step p l p' -> length (page_cards p') = length (page_cards p).
Proof.
  intros [j t e p0 p1 n Hev | p0 p1 Hfire].
  - unfold page_event in Hev. destruct (page_cards p0 !! j); [| injection Hev as <- <-; reflexivity].
    destruct (dispatch _ _ _ _) as [[[reg' cj'] errs] n']. injection Hev as <- <-. apply length_insert.
  - unfold fire_timer in Hfire. destruct (page_timers p0); [discriminate|].
    injection Hfire as <-. apply length_alter.
Qed.

(** C6: The page refines the spec's overlay state machine: in every step,
    the state of each card's overlay (HIDDEN: nothing erased, SCRATCHING:
    some pixel erased, REVEALED: the [scratched] class) follows the spec's
    transitions HIDDEN -> SCRATCHING -> REVEALED, possibly several in one
    event, and never goes back. *)
Theorem step_refines_overlay_spec (p : Page Sf) (l : Label) (p' : Page Sf) (i : nat) (c c' : Card Sf) :
  step p l p' -> page_cards p !! i = Some c -> page_cards p' !! i = Some c' ->
  rtc overlay_spec_step (overlay_state c) (overlay_state c').
Proof.
  intros Hstep Hc Hc'. destruct (step_card_mono p l p' i c c' Hstep Hc Hc') as (Ha & Hs & _).
  apply overlay_state_mono; assumption.
Qed.

(** C12: Along any run of the page, each card's erased area never decreases
    (erasure is permanent), a revealed card stays revealed (REVEALED is
    terminal), and the card's symbol, prize text and dataset
    ([prizeAmount], [prizeType], [isWinningWord]) never change after
    setup. *)
Theorem run_card_monotone (p : Page Sf) (ls : list Label) (p' : Page Sf) (i : nat) (c c' : Card Sf) :
  run p ls p' -> page_cards p !! i = Some c -> page_cards p' !! i = Some c' ->
  (area c <= area c')%Z /\ (card_scratched c = true -> card_scratched c' = true) /\
  card_lucky_word c' = card_lucky_word c /\ card_display c' = card_display c /\
  card_dataset c' = card_dataset c.
Proof.
  intros Hrun. revert c'. induction Hrun as [p | p ls p1 l p2 Hrun IH Hs]; intros c' Hc Hc'.
  - rewrite Hc in Hc'. injection Hc' as <-. apply card_mono_refl.
  - assert (is_Some (page_cards p1 !! i)) as [c1 Hc1].
    { apply lookup_lt_is_Some_2. rewrite <- (step_length p1 l p2 Hs). eapply lookup_lt_Some; exact Hc'. }
    apply (card_mono_trans c c1 c'); [apply IH; assumption | apply (step_card_mono p1 l p2 i); assumption].
Qed.

Lemma run_prepend (p : Page Sf) (l : Label) (p' : Page Sf) (ls : list Label) (p'' : Page Sf) :
  step p l p' -> run p' ls p'' -> run p (l :: ls) p''.
Proof.
  intros Hs Hr. induction Hr as [p' | p' ls p1 l' p2 Hr IH Hs'].
  - change [l] with ([] ++ [l])%list. econstructor; [constructor | exact Hs].
  - change (l :: ls ++ [l'])%list with ((l :: ls) ++ [l'])%list. econstructor; [apply IH, Hs | exact Hs'].
Qed.

Lemma reset_card_rel (c : Card Sf) :
  let c' := remove_no_prize (setupCanvas (set_scratched false c)) in
  card_lucky_word c' = card_lucky_word c /\ cardId c' = cardId c /\ card_scratched c' = false /\
  length (card_closures c') = S (length (card_closures c)).
Proof.
  cbn zeta. destruct (setupCanvas_rel (set_scratched false c)) as (H1 & H2 & _ & H6 & H4 & _).
  unfold remove_no_prize, set_prize, cardId in *. cbn [card_lucky_word card_dataset card_scratched
    card_closures] in *.
  rewrite H4, length_app. cbn [length]. repeat split; try assumption. cbn. lia.
Qed.

(** C25: [resetGame] clears [scratchedCards] and puts every overlay back to
    HIDDEN, but it keeps every card's lucky word (it never calls
    [shuffleWinningWords], while the spec says new symbols are drawn), and
    since it runs [setupCanvas] twice per card it registers two more sets
    of listeners on every canvas. *)
Theorem resetGame_spec (p : Page Sf) :
  scratchedCards (resetGame p) = ∅ /\
  Forall2 (fun c c' => card_lucky_word c' = card_lucky_word c /\ cardId c' = cardId c /\
             card_scratched c' = false /\ overlay_state c' = HIDDEN /\
             length (card_closures c') = (length (card_closures c) + 2)%nat)
    (page_cards p) (page_cards (resetGame p)).
Proof.
  unfold resetGame.
  set (cs1 := map (fun c => remove_no_prize (setupCanvas (set_scratched false c))) (page_cards p)).
  pose proof (setupCards_rel cs1 (page_rng p)) as Hc.
  destruct (setupCards cs1 (page_rng p)) as [cs2 g2]. cbn [fst] in Hc. cbn.
  split; [reflexivity|]. subst cs1. revert cs2 Hc.
  induction (page_cards p) as [|c cs IH]; intros cs2 Hc; inversion Hc as [|? c2 ? cs2' Hr Hc']; subst;
    constructor; [| apply IH, Hc'].
  destruct (reset_card_rel c) as (R1 & R2 & R3 & R4). destruct Hr as (H1 & H2 & _ & H6 & H4 & H5).
  unfold overlay_state. rewrite H2, R3, H5, H4, length_app, R4. cbn. repeat split; try congruence; lia.
Qed.

(** The set of a page whose card [i] has its key registered and no drag in
    progress, and that card's canvas and [scratched] class. *)
Lemma step_registered_idle (p : Page Sf) (l : Label) (p' : Page Sf) (i : nat) (c : Card Sf) :
  step p l p' -> page_cards p !! i = Some c -> cardId c ∈ scratchedCards p ->
  Forall (fun cl => isScratching cl = false) (card_closures c) ->
  exists c', page_cards p' !! i = Some c' /\ cardId c' ∈ scratchedCards p' /\
    Forall (fun cl => isScratching cl = false) (card_closures c') /\
    card_canvas c' = card_canvas c /\ card_scratched c' = card_scratched c.
Proof.
  intros Hstep Hc Hin Hidle. destruct Hstep as [j t e p p' n Hev | p p' Hfire].
  - unfold page_event in Hev. destruct (page_cards p !! j) as [cj|] eqn:Hj.
    2: { injection Hev as <- <-. exists c. auto. }
    destruct (decide (j = i)) as [<- | Hne].
    + rewrite Hc in Hj. injection Hj as <-. unfold dispatch in Hev.
      pose proof (run_listeners_blocked t e (scratchedCards p) c _ Hin Hidle) as Hb.
      destruct (run_listeners t e (scratchedCards p) c (card_closures c)) as [[[[reg' c'] cls'] errs] n'].
      destruct Hb as (-> & -> & Hcl & -> & ->). injection Hev as <- <-.
      exists (set_closures cls' c). cbn [page_cards scratchedCards].
      rewrite list_lookup_insert_eq by (eapply lookup_lt_Some; exact Hc). auto.
    + pose proof (dispatch_progress t e (scratchedCards p) cj) as Hp.
      destruct (dispatch t e (scratchedCards p) cj) as [[[reg' cj'] errs] n'].
      destruct Hp as (Hsub & _). injection Hev as <- <-. exists c. cbn [page_cards scratchedCards].
      rewrite list_lookup_insert_ne by exact Hne. repeat split; auto.
  - unfold fire_timer in Hfire. destruct (page_timers p) as [|j rest]; [discriminate|].
    injection Hfire as <-. cbn [page_cards scratchedCards]. rewrite list_lookup_alter.
    destruct (decide (j = i)) as [<- | Hne]; rewrite Hc; cbn; eexists; (split; [reflexivity|]); auto.
Qed.

(** C8: Once a key is in [scratchedCards], a card with that key and no drag
    in progress is frozen for good: along any run its canvas, its
    [scratched] class and so its overlay state never change again.
    Without [data-card-id] every key is [undefined], so after the first
    reveal every other card that is not being dragged at that moment can
    never be scratched or revealed. *)
Theorem registered_idle_card_frozen (p : Page Sf) (ls : list Label) (p' : Page Sf) (i : nat) (c : Card Sf) :
  run p ls p' -> page_cards p !! i = Some c -> cardId c ∈ scratchedCards p ->
  Forall (fun cl => isScratching cl = false) (card_closures c) ->
  exists c', page_cards p' !! i = Some c' /\ card_canvas c' = card_canvas c /\
    card_scratched c' = card_scratched c /\ overlay_state c' = overlay_state c.
Proof.
  intros Hrun Hc Hin Hidle.
  assert (H : exists c', page_cards p' !! i = Some c' /\ cardId c' ∈ scratchedCards p' /\
            Forall (fun cl => isScratching cl = false) (card_closures c') /\
            card_canvas c' = card_canvas c /\ card_scratched c' = card_scratched c).
  { induction Hrun as [p | p ls p1 l p2 Hrun IH Hs]; [exists c; auto|].
    destruct (IH Hc Hin) as (c1 & H1 & H2 & H3 & H4 & H5).
    destruct (step_registered_idle p1 l p2 i c1 Hs H1 H2 H3) as (c2 & G1 & G2 & G3 & G4 & G5).
    exists c2. repeat split; auto; congruence. }
  destruct H as (c' & H1 & _ & _ & H4 & H5). exists c'. repeat split; auto.
  unfold overlay_state, area. rewrite H4, H5. reflexivity.
Qed.

End PageFacts.

End Game.
