(* ===== verification/Scenarios.v ===== *)
(** * Scenarios: concrete pages run through the model

    Concrete documents over the [AlphaCanvas] surface, the pointer events
    a user produces on them and the pages the event loop reaches, all
    evaluated by [vm_compute].  The theorems of [Surface], [Scratch] and
    [Game] are stated over any surface satisfying [Surface2DLaws], so each
    is applied here at these concrete inputs.

    [demo_doc] has two 4 x 4 cards with no [data-card-id] attribute, as
    the cards of index.html; [id_doc] has the same cards with the
    attributes ["a"] and ["b"].  On both, a mouse press and one move at the
    centre of a card erase its whole overlay (the brush radius 20 exceeds
    the card), so the move reaches the 50% threshold.  On [demo_doc] only
    the first card is revealed: the second one's [startScratching] returns
    at once, because the key [undefined] is already in [scratchedCards]. *)

From Stdlib Require Import Floats ZArith Lia.
From stdpp Require Import base list gmap strings.
From S2P Require Import Prelude Symbols Prizes Surface Scratch Game.

Set Warnings "-inexact-float".

Module Scenarios.

Import Scratch Game.

Local Open Scope string_scope.

(** ** Documents, events and the pages they lead to *)

Definition canvas0 : AlphaCanvas := ac_const 0 ltac:(lia) 0 0.

Definition card_with (ds : gmap string string) : Card AlphaCanvas :=
  mkCard "" (Prizes.mkDisplay "" "" false) ds false (mkRect 0 0 4 4) canvas0 [] 0 false.

Definition demo_doc : list (Card AlphaCanvas) := [card_with ∅; card_with ∅].

Definition id_doc : list (Card AlphaCanvas) :=
  [card_with {[ "cardId" := "a" ]}; card_with {[ "cardId" := "b" ]}].

Definition demo_rng : Rng := rng_of_list [0.5; 0.5; 0.5; 0.5; 0.5; 0.5]%float.

Definition ev_at (x y : float) : PointerEvent := mkEvent (Some x) (Some y) None.

Definition demo_p0 := scratchCard_new demo_doc demo_rng.
Definition demo_p1 := fst (page_event 0 MouseDown (ev_at 2 2) demo_p0).
Definition demo_p2 := fst (page_event 0 MouseMove (ev_at 2 2) demo_p1).
Definition demo_p3 := fst (page_event 1 MouseDown (ev_at 2 2) demo_p2).
Definition demo_p4 := fst (page_event 1 MouseMove (ev_at 2 2) demo_p3).

Definition demo_trace : list Label := [LEvent 0 0; LEvent 0 1; LEvent 1 0; LEvent 1 0].



(** Card [i] of page [p] ([card_with ∅] when there is none). *)
Definition card_at (p : Page AlphaCanvas) (i : nat) : Card AlphaCanvas :=
  default (card_with ∅) (page_cards p !! i).

(** The closure card 0 of [demo_p1] registered, scratching since the press. *)
Definition demo_closure : Closure :=
  default (mkClosure false 0 0) (head (card_closures (card_at demo_p1 0))).

Ltac eval_eq := vm_compute; reflexivity.

Ltac eval_decide := apply (bool_decide_unpack _); vm_compute; reflexivity.

(** ** The runs *)

Lemma demo_doc_fresh : Forall fresh_card demo_doc.
Proof. repeat constructor. Qed.

Lemma id_doc_fresh : Forall fresh_card id_doc.
Proof. repeat constructor. Qed.

Lemma demo_rng_ok : rng_ok demo_rng.
Proof. apply rng_of_list_ok. vm_compute. reflexivity. Qed.

Lemma demo_doc_no_prize : Forall (fun c => Prizes.no_prize (card_display c) = false) demo_doc.
Proof. repeat constructor. Qed.

Lemma demo_step (i : nat) (t : EventType) (p : Page AlphaCanvas) (n : nat) :
  snd (page_event i t (ev_at 2 2) p) = n -> step p (LEvent i n) (fst (page_event i t (ev_at 2 2) p)).
Proof. intros <-. apply (step_event i t (ev_at 2 2)). destruct (page_event _ _ _ _); reflexivity. Qed.

Lemma card_at_lookup (p : Page AlphaCanvas) (i : nat) :
  (i < length (page_cards p))%nat -> page_cards p !! i = Some (card_at p i).
Proof.
  intros Hi. unfold card_at. destruct (lookup_lt_is_Some_2 _ _ Hi) as [c ->]. reflexivity.
Qed.

Ltac demo_step_at i t p n :=
  eapply run_prepend; [exact (demo_step i t p n ltac:(eval_eq)) |].

Lemma demo_run : run demo_p0 demo_trace demo_p4.
Proof.
  demo_step_at 0%nat MouseDown demo_p0 0%nat. demo_step_at 0%nat MouseMove demo_p1 1%nat.
  demo_step_at 1%nat MouseDown demo_p2 0%nat. demo_step_at 1%nat MouseMove demo_p3 0%nat.
  apply run_nil.
Qed.

Lemma demo_run_tail : run demo_p2 [LEvent 1 0; LEvent 1 0] demo_p4.
Proof.
  demo_step_at 1%nat MouseDown demo_p2 0%nat. demo_step_at 1%nat MouseMove demo_p3 0%nat. apply run_nil.
Qed.

Lemma demo_card1_registered : cardId (card_at demo_p2 1) ∈ scratchedCards demo_p2.
Proof. eval_decide. Qed.

Lemma demo_card1_idle : Forall (fun cl => isScratching cl = false) (card_closures (card_at demo_p2 1)).
Proof. eval_decide. Qed.


(** ** Theorems *)


Lemma setupCanvas_draw_opaque_witness :
  surf_dims (setupCanvas_draw 4 4 canvas0) = (js_to_uint32 4, js_to_uint32 4) /\
  length (surf_alpha (setupCanvas_draw 4 4 canvas0)) = Z.to_nat (js_to_uint32 4 * js_to_uint32 4) /\
  Forall (fun a => a = 255%Z) (surf_alpha (setupCanvas_draw 4 4 canvas0)) /\
  calculateScratchedArea (setupCanvas_draw 4 4 canvas0) = 0%Z.
Proof. exact (setupCanvas_draw_opaque 4 4 canvas0). Defined.

Lemma dispatch_reveals_at_most_once_witness :
  snd (dispatch MouseMove (ev_at 2 2) (scratchedCards demo_p1) (card_at demo_p1 0)) = 1%nat /\
  let '(reg', c', errs, n) := dispatch MouseMove (ev_at 2 2) (scratchedCards demo_p1) (card_at demo_p1 0) in
  (n <= 1)%nat /\
  (n = 1%nat -> (cardId (card_at demo_p1 0) ∉ scratchedCards demo_p1) /\ cardId (card_at demo_p1 0) ∈ reg' /\
                card_scratched c' = true /\ ReferenceError "prizeAmount" ∈ errs) /\
  (cardId (card_at demo_p1 0) ∈ scratchedCards demo_p1 -> n = 0%nat) /\
  card_celebrations c' = card_celebrations (card_at demo_p1 0) /\
  length (card_closures c') = length (card_closures (card_at demo_p1 0)).
Proof.
  split; [eval_eq |].
  pose proof (dispatch_reveals_at_most_once MouseMove (ev_at 2 2) (scratchedCards demo_p1) (card_at demo_p1 0)) as H.
  revert H. destruct (dispatch MouseMove (ev_at 2 2) (scratchedCards demo_p1) (card_at demo_p1 0)) as [[[r c'] errs] n].
  exact (fun H => H).
Defined.

Lemma scratchCard_new_spec_witness :
  Forall fresh_card demo_doc /\
  scratchedCards (scratchCard_new demo_doc demo_rng) = ∅ /\ page_errors (scratchCard_new demo_doc demo_rng) = [] /\
  Forall2 (fun c0 c => cardId c = cardId c0 /\ card_scratched c = false /\ area c = 0%Z /\
             overlay_state c = HIDDEN /\ card_celebrations c = 0%nat /\
             card_closures c = [mkClosure false 0 (surf_width (card_canvas c) * surf_height (card_canvas c))])
    demo_doc (page_cards (scratchCard_new demo_doc demo_rng)).
Proof. split; [exact demo_doc_fresh | exact (scratchCard_new_spec demo_doc demo_rng demo_doc_fresh)]. Defined.

Lemma card_revealed_at_most_once_witness :
  Forall fresh_card demo_doc /\ run (scratchCard_new demo_doc demo_rng) demo_trace demo_p4 /\
  forall i, (card_reveals i demo_trace <= 1)%nat.
Proof.
  split; [exact demo_doc_fresh | split; [exact demo_run |]].
  exact (card_revealed_at_most_once demo_doc demo_rng demo_trace demo_p4 demo_doc_fresh demo_run).
Defined.

Lemma no_card_ids_single_reveal_witness :
  Forall fresh_card demo_doc /\ Forall (fun c => cardId c = None) demo_doc /\
  run (scratchCard_new demo_doc demo_rng) demo_trace demo_p4 /\
  (total_reveals demo_trace <= 1)%nat /\
  overlay_state (card_at demo_p4 0) = REVEALED /\ overlay_state (card_at demo_p4 1) = HIDDEN.
Proof.
  assert (Hn : Forall (fun c => cardId c = None) demo_doc) by (repeat constructor).
  split; [exact demo_doc_fresh | split; [exact Hn | split; [exact demo_run |]]].
  split; [exact (no_card_ids_single_reveal demo_doc demo_rng demo_trace demo_p4 demo_doc_fresh Hn demo_run) |].
  split; eval_eq.
Defined.

Lemma reachable_page_facts_witness :
  Forall fresh_card demo_doc /\ run (scratchCard_new demo_doc demo_rng) demo_trace demo_p4 /\
  page_timers demo_p4 = [] /\
  forall i c, page_cards demo_p4 !! i = Some c ->
    card_celebrations c = 0%nat /\
    (card_scratched c = true ->
     cardId c ∈ scratchedCards demo_p4 /\ area c = (surf_width (card_canvas c) * surf_height (card_canvas c))%Z).
Proof.
  split; [exact demo_doc_fresh | split; [exact demo_run |]].
  exact (reachable_page_facts demo_doc demo_rng demo_trace demo_p4 demo_doc_fresh demo_run).
Defined.

Lemma step_refines_overlay_spec_witness :
  step demo_p1 (LEvent 0 1) demo_p2 /\
  page_cards demo_p1 !! 0%nat = Some (card_at demo_p1 0) /\ page_cards demo_p2 !! 0%nat = Some (card_at demo_p2 0) /\
  overlay_state (card_at demo_p1 0) = SCRATCHING /\ overlay_state (card_at demo_p2 0) = REVEALED /\
  rtc overlay_spec_step (overlay_state (card_at demo_p1 0)) (overlay_state (card_at demo_p2 0)).
Proof.
  assert (Hs : step demo_p1 (LEvent 0 1) demo_p2) by exact (demo_step 0 MouseMove demo_p1 1 ltac:(eval_eq)).
  assert (H1 : page_cards demo_p1 !! 0%nat = Some (card_at demo_p1 0)) by (apply card_at_lookup; vm_compute; lia).
  assert (H2 : page_cards demo_p2 !! 0%nat = Some (card_at demo_p2 0)) by (apply card_at_lookup; vm_compute; lia).
  split; [exact Hs | split; [exact H1 | split; [exact H2 | split; [eval_eq | split; [eval_eq |]]]]].
  exact (step_refines_overlay_spec demo_p1 (LEvent 0 1) demo_p2 0 _ _ Hs H1 H2).
Defined.

Lemma resetGame_spec_witness :
  scratchedCards (resetGame demo_p4) = ∅ /\
  Forall2 (fun c c' => card_lucky_word c' = card_lucky_word c /\ cardId c' = cardId c /\
             card_scratched c' = false /\ overlay_state c' = HIDDEN /\
             length (card_closures c') = (length (card_closures c) + 2)%nat)
    (page_cards demo_p4) (page_cards (resetGame demo_p4)).
Proof. exact (resetGame_spec demo_p4). Defined.

Lemma getMousePos_mouse_witness :
  getMousePos (mkRect 0 0 4 4) (mkEvent (Some 2%float) (Some 3%float) None) = inl ((2 - 0)%float, (3 - 0)%float) /\
  getMousePos (mkRect 0 0 4 4) (mkEvent (Some 0%float) (Some 3%float) None) =
    inr (TypeError "Cannot read properties of undefined (reading '0')").
Proof.
  split.
  - exact (proj1 (getMousePos_mouse (mkRect 0 0 4 4) 2%float 3%float) eq_refl eq_refl eq_refl eq_refl).
  - exact (proj2 (getMousePos_mouse (mkRect 0 0 4 4) 0%float 3%float) (or_introl eq_refl)).
Defined.

Lemma dispatch_touchmove_no_touches_witness :
  length (filter (fun cl => isScratching cl = true) (card_closures (card_at demo_p1 0))) = 1%nat /\
  dispatch TouchMove (mkEvent None None (Some [])) (scratchedCards demo_p1) (card_at demo_p1 0) =
  (scratchedCards demo_p1, card_at demo_p1 0,
   map (fun _ => TypeError "Cannot read properties of undefined (reading 'clientX')")
       (filter (fun cl => isScratching cl = true) (card_closures (card_at demo_p1 0))), 0%nat).
Proof.
  split; [eval_eq |].
  exact (dispatch_touchmove_no_touches (scratchedCards demo_p1) (card_at demo_p1 0)).
Defined.

Lemma scratchMove_reveals_iff_witness :
  o_revealed (scratchMove (scratchedCards demo_p1) (card_at demo_p1 0) demo_closure (ev_at 2 2)) = true /\
  (o_revealed (scratchMove (scratchedCards demo_p1) (card_at demo_p1 0) demo_closure (ev_at 2 2)) = true <->
   cardId (card_at demo_p1 0) ∉ scratchedCards demo_p1 /\
   (totalArea demo_closure <= 2 * calculateScratchedArea (scratch 2%float 2%float (card_canvas (card_at demo_p1 0))))%Z).
Proof.
  split; [eval_eq |].
  apply (scratchMove_reveals_iff (scratchedCards demo_p1) (card_at demo_p1 0) demo_closure (ev_at 2 2) 2%float 2%float);
    eval_eq.
Defined.

Lemma run_card_monotone_witness :
  run demo_p0 demo_trace demo_p4 /\
  page_cards demo_p0 !! 0%nat = Some (card_at demo_p0 0) /\ page_cards demo_p4 !! 0%nat = Some (card_at demo_p4 0) /\
  (area (card_at demo_p0 0) < area (card_at demo_p4 0))%Z /\
  (area (card_at demo_p0 0) <= area (card_at demo_p4 0))%Z /\
  (card_scratched (card_at demo_p0 0) = true -> card_scratched (card_at demo_p4 0) = true) /\
  card_lucky_word (card_at demo_p4 0) = card_lucky_word (card_at demo_p0 0) /\
  card_display (card_at demo_p4 0) = card_display (card_at demo_p0 0) /\
  card_dataset (card_at demo_p4 0) = card_dataset (card_at demo_p0 0).
Proof.
  assert (H0 : page_cards demo_p0 !! 0%nat = Some (card_at demo_p0 0)) by (apply card_at_lookup; vm_compute; lia).
  assert (H4 : page_cards demo_p4 !! 0%nat = Some (card_at demo_p4 0)) by (apply card_at_lookup; vm_compute; lia).
  split; [exact demo_run |]. split; [exact H0 |]. split; [exact H4 |]. split; [eval_eq |].
  exact (run_card_monotone demo_p0 demo_trace demo_p4 0 _ _ demo_run H0 H4).
Defined.

Lemma dispatch_registered_idle_witness :
  cardId (card_at demo_p2 1) ∈ scratchedCards demo_p2 /\
  Forall (fun cl => isScratching cl = false) (card_closures (card_at demo_p2 1)) /\
  let '(reg', c', errs, n) := dispatch MouseDown (ev_at 2 2) (scratchedCards demo_p2) (card_at demo_p2 1) in
  reg' = scratchedCards demo_p2 /\ card_canvas c' = card_canvas (card_at demo_p2 1) /\
  card_scratched c' = card_scratched (card_at demo_p2 1) /\
  cardId c' = cardId (card_at demo_p2 1) /\ Forall (fun cl => isScratching cl = false) (card_closures c') /\
  errs = [] /\ n = 0%nat.
Proof.
  split; [exact demo_card1_registered |]. split; [exact demo_card1_idle |].
  pose proof (dispatch_registered_idle MouseDown (ev_at 2 2) (scratchedCards demo_p2) (card_at demo_p2 1)
                demo_card1_registered demo_card1_idle) as H.
  revert H. destruct (dispatch MouseDown (ev_at 2 2) (scratchedCards demo_p2) (card_at demo_p2 1))
    as [[[r c'] errs] n].
  exact (fun H => H).
Defined.

Lemma registered_idle_card_frozen_witness :
  run demo_p2 [LEvent 1 0; LEvent 1 0] demo_p4 /\
  page_cards demo_p2 !! 1%nat = Some (card_at demo_p2 1) /\
  cardId (card_at demo_p2 1) ∈ scratchedCards demo_p2 /\
  Forall (fun cl => isScratching cl = false) (card_closures (card_at demo_p2 1)) /\
  exists c', page_cards demo_p4 !! 1%nat = Some c' /\ card_canvas c' = card_canvas (card_at demo_p2 1) /\
    card_scratched c' = card_scratched (card_at demo_p2 1) /\ overlay_state c' = overlay_state (card_at demo_p2 1).
Proof.
  assert (H1 : page_cards demo_p2 !! 1%nat = Some (card_at demo_p2 1)) by (apply card_at_lookup; vm_compute; lia).
  split; [exact demo_run_tail |]. split; [exact H1 |].
  split; [exact demo_card1_registered |]. split; [exact demo_card1_idle |].
  exact (registered_idle_card_frozen demo_p2 [LEvent 1 0; LEvent 1 0] demo_p4 1 _
           demo_run_tail H1 demo_card1_registered demo_card1_idle).
Defined.

Lemma scratchCard_new_prizes_witness :
  rng_ok demo_rng /\ Forall (fun c => Prizes.no_prize (card_display c) = false) demo_doc /\
  Forall (fun c =>
    (card_lucky_word c ∈ Symbols.normalWords \/ card_lucky_word c ∈ Symbols.winningWords_local) /\
    card_dataset c !! "isWinningWord" = Some (Prizes.bool_string (Symbols.isWinningWord (card_lucky_word c))) /\
    (card_dataset c !! "prizeAmount" = Some "0" <-> Symbols.isWinningWord (card_lucky_word c) = false) /\
    (card_dataset c !! "prizeType" = Some "谢谢参与" <-> Symbols.isWinningWord (card_lucky_word c) = false) /\
    (Prizes.no_prize (card_display c) = true <-> Symbols.isWinningWord (card_lucky_word c) = false))
    (page_cards (scratchCard_new demo_doc demo_rng)).
Proof.
  split; [exact demo_rng_ok |]. split; [exact demo_doc_no_prize |].
  exact (scratchCard_new_prizes demo_doc demo_rng demo_rng_ok demo_doc_no_prize).
Defined.

End Scenarios.
